(** * Fixture generator for the copyright-notice extension

    A shallow embedding of [scripts/gen_test_files.py] and the properties
    its specification states about it.

    The script creates an output directory, writes nineteen files of fixed
    text into it, prints a timestamped log, and reports how many entries
    the directory holds.  Everything it does is an effect on the file system
    or on standard output, so the embedding is a state-and-exception monad
    over a [world]: a finite map from resolved paths to nodes, the lines
    printed so far, and a clock.  What the operating system decides on its
    own (permissions, a full disk) is an oracle the whole development is
    parametrised by. *)

From Stdlib Require Import DecimalString Ascii String.
From stdpp Require Import gmap strings list fin_maps.

Local Open Scope string_scope.
Local Open Scope list_scope.

(** ** Text *)

Module Text.

(** The characters the literals of the script escape. *)
Definition nl : string := String "010"%char "".
Definition dq : string := String "034"%char "".

(** [str(n)] for a non-negative integer. *)
Definition str_nat (n : nat) : string :=
  NilZero.string_of_uint (Nat.to_uint n).

(** A byte that continues a UTF-8 sequence: 10xxxxxx. *)
Definition continuation (c : ascii) : bool :=
  let n := nat_of_ascii c in (128 <=? n)%nat && (n <? 192)%nat.

(** [len(s)] of a Python [str] held here as its UTF-8 bytes: the number
    of code points, that is of bytes that start one. *)
Fixpoint py_len (s : string) : nat :=
  match s with
  | EmptyString => 0
  | String c r => if continuation c then py_len r else S (py_len r)
  end.

(** [sep.join(l)]. *)
Fixpoint join (sep : string) (l : list string) : string :=
  match l with
  | [] => ""
  | [x] => x
  | x :: r => x +:+ sep +:+ join sep r
  end.

(** The lines of a triple-quoted literal, each closed by a newline. *)
Definition unlines (l : list string) : string :=
  fold_right (fun x acc => x +:+ nl +:+ acc) "" l.

(** [s.split("/")]. *)
Fixpoint segments (s : string) : list string :=
  match s with
  | EmptyString => [""]
  | String c r =>
      if Ascii.eqb c "/"%char then "" :: segments r
      else match segments r with
           | [] => [String c ""]
           | x :: xs => String c x :: xs
           end
  end.

End Text.

Import Text.

(** ** Paths

    [pathlib.Path] in its POSIX flavour: a path has a root, which is
    empty when the path is relative, and a list of components; empty
    components and single dots are dropped when a string is parsed.  One
    leading slash gives the root [/], exactly two give the root [//],
    which is kept apart, and three or more give [/] again.  Double-dot
    components are kept as they are spelt; the file tree below does not
    interpret them, nor symbolic links: it says where a path leads for
    paths without them. *)

Record Path := MkPath { root : string; parts : list string }.

(** [p.is_absolute()] *)
Definition anchored (p : Path) : bool := negb (String.eqb (root p) "").

Definition keep_part (x : string) : bool :=
  negb (String.eqb x "") && negb (String.eqb x ".").

(** The root of a path spelt [s]. *)
Definition root_of (s : string) : string :=
  match s with
  | String "/"%char (String "/"%char (String "/"%char _)) => "/"
  | String "/"%char (String "/"%char _) => "//"
  | String "/"%char _ => "/"
  | _ => ""
  end.

(** [Path(s)] *)
Definition Path_of (s : string) : Path :=
  {| root := root_of s;
     parts := List.filter keep_part (segments s) |}.

(** [str(p)] *)
Definition path_str (p : Path) : string :=
  if anchored p then root p +:+ join "/" (parts p)
  else match parts p with
       | [] => "."
       | _ => join "/" (parts p)
       end.

(** [p / s] *)
Definition truediv (p : Path) (s : string) : Path :=
  let q := Path_of s in
  if anchored q then q
  else {| root := root p; parts := parts p ++ parts q |}.


(** ** The file system and the world *)

Inductive node :=
| Dir
| File (content : string).

(** The subclasses of [OSError] the operations below raise. *)
Inductive oserror :=
| FileExistsError
| FileNotFoundError
| NotADirectoryError
| IsADirectoryError
| PermissionError
| OtherOSError.

(** Exceptions.  [OSError] and its subclasses derive from [Exception];
    [SystemExit], raised by [sys.exit], derives from [BaseException] only. *)
Inductive exn :=
| OSError (cls : oserror) (msg : string)
| SystemExit (code : Z).

(** [str(e)] *)
Definition exn_str (e : exn) : string :=
  match e with
  | OSError _ msg => msg
  | SystemExit code => NilZero.string_of_int (Z.to_int code)
  end.

(** [isinstance(e, Exception)] *)
Definition is_Exception (e : exn) : bool :=
  match e with
  | OSError _ _ => true
  | SystemExit _ => false
  end.

(** The calls that reach the operating system. *)
Inductive io_op := OpMkdir | OpOpen | OpWrite.

(** What happened to the files, in order: bookkeeping of the model, which
    the script neither reads nor writes. *)
Inductive event :=
| Wrote (k : list string) (content : string)
| WriteFailed (k : list string) (e : exn)
| MadeDir (k : list string).

Record world := World {
  fs : gmap (list string) node;
  stdout : list string;
  clock : nat;
  trace : list event
}.

Inductive result (A : Type) :=
| Ok (a : A)
| Raise (e : exn).
Arguments Ok {A} a.
Arguments Raise {A} e.

(** A computation runs in a world and leaves a world behind, also when it
    raises: nothing is undone. *)
Definition M (A : Type) : Type := world -> result A * world.

Definition ret {A} (a : A) : M A := fun w => (Ok a, w).

Definition bind {A B} (m : M A) (f : A -> M B) : M B :=
  fun w =>
    match m w with
    | (Ok a, w') => f a w'
    | (Raise e, w') => (Raise e, w')
    end.

Definition raise {A} (e : exn) : M A := fun w => (Raise e, w).

(** [try: body / except Exception as e: handler(e)] *)
Definition try_except {A} (body : M A) (handler : exn -> M A) : M A :=
  fun w =>
    match body w with
    | (Ok a, w') => (Ok a, w')
    | (Raise e, w') => if is_Exception e then handler e w' else (Raise e, w')
    end.

Declare Scope py_scope.
Delimit Scope py_scope with py.
Notation "x <- m ;; k" := (bind m (fun x => k))
  (at level 100, m at next level, right associativity) : py_scope.
Notation "m ;;; k" := (bind m (fun _ => k))
  (at level 100, right associativity) : py_scope.
Local Open Scope py_scope.

(** The node at a resolved path; the root is always a directory. *)
Definition node_at (m : gmap (list string) node) (k : list string) : option node :=
  match k with
  | [] => Some Dir
  | _ => m !! k
  end.

Definition parent (k : list string) : list string := removelast k.

(** The entries of directory [d]: the resolved paths one component below it. *)
Definition is_entry (d k : list string) : Prop := k ≠ [] ∧ parent k = d.

#[global] Instance is_entry_dec d k : Decision (is_entry d k) :=
  ltac:(unfold is_entry; apply _).

Definition entries (m : gmap (list string) node) (d : list string) : list (list string) :=
  filter (is_entry d) (map_to_list m).*1.

(** ** JSON, as [json.dump] writes it and [json.load] reads it

    Values are the ones the settings literal of the script is made of,
    plus [null].  A Python [dict] keeps the order of insertion, so an
    object is an association list.  Numbers do not occur and are not
    modelled; strings are taken to be ASCII, which those of the script
    are. *)

Module Json.

#[warnings="-register-all"] Inductive json :=
| JNull
| JBool (b : bool)
| JStr (s : string)
| JArr (items : list json)
| JObj (members : list (string * json)).

Definition hex_digit (n : nat) : ascii :=
  ascii_of_nat (if (n <? 10)%nat then 48 + n else 87 + n).

(** One character of a string, as [ensure_ascii] escapes it. *)
Definition escape_char (c : ascii) : string :=
  let n := nat_of_ascii c in
  if Ascii.eqb c "034"%char then "\" +:+ dq
  else if Ascii.eqb c "\"%char then "\\"
  else if Ascii.eqb c "010"%char then "\n"
  else if Ascii.eqb c "013"%char then "\r"
  else if Ascii.eqb c "009"%char then "\t"
  else if Ascii.eqb c "008"%char then "\b"
  else if Ascii.eqb c "012"%char then "\f"
  else if (n <? 32)%nat then
    "\u00" +:+ String (hex_digit (n / 16)) (String (hex_digit (n mod 16)) "")
  else String c "".

Fixpoint escape (s : string) : string :=
  match s with
  | EmptyString => ""
  | String c r => escape_char c +:+ escape r
  end.

Definition encode_str (s : string) : string := dq +:+ escape s +:+ dq.

Fixpoint spaces (n : nat) : string :=
  match n with
  | 0 => ""
  | S k => " " +:+ spaces k
  end.

(** [json.dumps(v, indent=indent)] at nesting depth [level]: one item
    per line, items separated by a comma, keys by a colon and a space;
    an empty container stays on one line. *)
Fixpoint dumps_at (indent level : nat) (v : json) : string :=
  let inner := nl +:+ spaces (indent * S level) in
  let outer := nl +:+ spaces (indent * level) in
  match v with
  | JNull => "null"
  | JBool true => "true"
  | JBool false => "false"
  | JStr s => encode_str s
  | JArr [] => "[]"
  | JArr items =>
      "[" +:+ inner
          +:+ join ("," +:+ inner) (map (dumps_at indent (S level)) items)
          +:+ outer +:+ "]"
  | JObj [] => "{}"
  | JObj members =>
      "{" +:+ inner
          +:+ join ("," +:+ inner)
                (map (fun kv => encode_str (fst kv) +:+ ": "
                                  +:+ dumps_at indent (S level) (snd kv))
                     members)
          +:+ outer +:+ "}"
  end.

Definition dumps (v : json) (indent : nat) : string := dumps_at indent 0 v.

(** *** Reading *)

Definition is_ws (c : ascii) : bool :=
  Ascii.eqb c " "%char || Ascii.eqb c "010"%char
  || Ascii.eqb c "013"%char || Ascii.eqb c "009"%char.

Fixpoint skip_ws (s : string) : string :=
  match s with
  | String c r => if is_ws c then skip_ws r else s
  | EmptyString => ""
  end.

Definition hex_value (c : ascii) : option nat :=
  let n := nat_of_ascii c in
  if (48 <=? n)%nat && (n <=? 57)%nat then Some (n - 48)
  else if (97 <=? n)%nat && (n <=? 102)%nat then Some (n - 87)
  else if (65 <=? n)%nat && (n <=? 70)%nat then Some (n - 55)
  else None.

Definition unescape (c : ascii) : option ascii :=
  if Ascii.eqb c "034"%char then Some "034"%char
  else if Ascii.eqb c "\"%char then Some "\"%char
  else if Ascii.eqb c "/"%char then Some "/"%char
  else if Ascii.eqb c "n"%char then Some "010"%char
  else if Ascii.eqb c "r"%char then Some "013"%char
  else if Ascii.eqb c "t"%char then Some "009"%char
  else if Ascii.eqb c "b"%char then Some "008"%char
  else if Ascii.eqb c "f"%char then Some "012"%char
  else None.

(** The characters of a string after its opening quote, up to the
    closing one; what follows it is returned too. *)
Fixpoint parse_chars (s : string) : option (string * string) :=
  match s with
  | EmptyString => None
  | String c r =>
      if Ascii.eqb c "034"%char then Some ("", r)
      else if Ascii.eqb c "\"%char then
        match r with
        | String "u"%char (String a (String b (String x (String y r')))) =>
            match hex_value a, hex_value b, hex_value x, hex_value y with
            | Some 0, Some 0, Some h, Some l =>
                match parse_chars r' with
                | Some (t, rest) => Some (String (ascii_of_nat (16 * h + l)) t, rest)
                | None => None
                end
            | _, _, _, _ => None
            end
        | String e r' =>
            match unescape e, parse_chars r' with
            | Some c', Some (t, rest) => Some (String c' t, rest)
            | _, _ => None
            end
        | EmptyString => None
        end
      else if (nat_of_ascii c <? 32)%nat then None
      else match parse_chars r with
           | Some (t, rest) => Some (String c t, rest)
           | None => None
           end
  end.

Fixpoint parse_value (fuel : nat) (s : string) : option (json * string) :=
  match fuel with
  | 0 => None
  | S n =>
      match skip_ws s with
      | String "{"%char r =>
          match skip_ws r with
          | String "}"%char r' => Some (JObj [], r')
          | _ => match parse_members n r with
                 | Some (ms, r') => Some (JObj ms, r')
                 | None => None
                 end
          end
      | String "["%char r =>
          match skip_ws r with
          | String "]"%char r' => Some (JArr [], r')
          | _ => match parse_items n r with
                 | Some (vs, r') => Some (JArr vs, r')
                 | None => None
                 end
          end
      | String "034"%char r =>
          match parse_chars r with
          | Some (t, r') => Some (JStr t, r')
          | None => None
          end
      | String "t"%char (String "r"%char (String "u"%char (String "e"%char r))) =>
          Some (JBool true, r)
      | String "f"%char (String "a"%char (String "l"%char
          (String "s"%char (String "e"%char r)))) =>
          Some (JBool false, r)
      | String "n"%char (String "u"%char (String "l"%char (String "l"%char r))) =>
          Some (JNull, r)
      | _ => None
      end
  end
with parse_items (fuel : nat) (s : string) : option (list json * string) :=
  match fuel with
  | 0 => None
  | S n =>
      match parse_value n s with
      | Some (v, r) =>
          match skip_ws r with
          | String ","%char r' =>
              match parse_items n r' with
              | Some (vs, rest) => Some (v :: vs, rest)
              | None => None
              end
          | String "]"%char r' => Some ([v], r')
          | _ => None
          end
      | None => None
      end
  end
with parse_members (fuel : nat) (s : string) : option (list (string * json) * string) :=
  match fuel with
  | 0 => None
  | S n =>
      match skip_ws s with
      | String "034"%char r =>
          match parse_chars r with
          | Some (key, r1) =>
              match skip_ws r1 with
              | String ":"%char r2 =>
                  match parse_value n r2 with
                  | Some (v, r3) =>
                      match skip_ws r3 with
                      | String ","%char r4 =>
                          match parse_members n r4 with
                          | Some (ms, rest) => Some ((key, v) :: ms, rest)
                          | None => None
                          end
                      | String "}"%char r4 => Some ([(key, v)], r4)
                      | _ => None
                      end
                  | None => None
                  end
              | _ => None
              end
          | None => None
          end
      | _ => None
      end
  end.

(** [json.loads(s)]: one value, and nothing but blanks after it. *)
Definition loads (s : string) : option json :=
  match parse_value (S (String.length s)) s with
  | Some (v, rest) =>
      match skip_ws rest with
      | EmptyString => Some v
      | _ => None
      end
  | None => None
  end.

(** The keys of a deserialised mapping, and the value under a key (the
    last one wins when a key is repeated, as in a [dict]). *)
Definition keys (v : json) : option (list string) :=
  match v with
  | JObj ms => Some (map fst ms)
  | _ => None
  end.

Fixpoint assoc (k : string) (ms : list (string * json)) : option json :=
  match ms with
  | [] => None
  | (k', v) :: r =>
      match assoc k r with
      | Some v' => Some v'
      | None => if String.eqb k k' then Some v else None
      end
  end.

Definition get (k : string) (v : json) : option json :=
  match v with
  | JObj ms => assoc k ms
  | _ => None
  end.

End Json.

Import Json.

(** ** The literals

    The text of each fixture, line by line as the script spells it; every
    line ends with a newline. *)

Module Literal.

Definition basic_js : string :=
  unlines
    [ "function hello() {";
      "    console.log('Hello, World!');";
      "}" ].

Definition with_copyright_js : string :=
  unlines
    [ "/**";
      " * Copyright (c) 2023 Test Company";
      " * All rights reserved.";
      " */";
      "";
      "function hello() {";
      "    console.log('Hello, World!');";
      "}" ].

Definition different_copyright_js : string :=
  unlines
    [ "/* Copyright (c) 2023 Another Company */";
      "";
      "function hello() {";
      "    console.log('Hello, World!');";
      "}" ].

Definition basic_ts : string :=
  unlines
    [ "interface User {";
      "    name: string;";
      "    age: number;";
      "}";
      "";
      "function greet(user: User): string {";
      "    return `Hello, ${user.name}!`;";
      "}" ].

Definition with_copyright_ts : string :=
  unlines
    [ "/**";
      " * Copyright (c) 2023 TypeScript Company";
      " * Created: 2023-01-01 12:00:00";
      " * Last Updated: 2023-01-15 14:30:00";
      " */";
      "";
      "interface User {";
      "    name: string;";
      "    age: number;";
      "}" ].

Definition basic_ahk : string :=
  unlines
    [ "F1::";
      "    MsgBox, Hello World!";
      "return";
      "";
      "F2::";
      "    Send, Hello from AutoHotkey!";
      "return" ].

Definition basic_ahk2 : string :=
  unlines
    [ "F1:: {";
      "    MsgBox('Hello World!')";
      "}";
      "";
      "F2:: {";
      "    Send('Hello from AutoHotkey v2!')";
      "}" ].

Definition with_copyright_ahk : string :=
  unlines
    [ "/*";
      " * Copyright (c) 2023 AHK Company";
      " * All rights reserved.";
      " */";
      "";
      "F1::";
      "    MsgBox, Hello World!";
      "return" ].

Definition basic_py : string :=
  unlines
    [ "def hello():";
      "    print('Hello, World!')";
      "";
      "if __name__ == '__main__':";
      "    hello()" ].

Definition with_copyright_py : string :=
  unlines
    [ "# Copyright (c) 2023 Python Company";
      "# All rights reserved.";
      "";
      "def hello():";
      "    print('Hello, World!')" ].

Definition basic_cpp : string :=
  unlines
    [ "#include <iostream>";
      "";
      "int main() {";
      ("    std::cout << " +:+ dq +:+ "Hello, World!" +:+ dq +:+ " << std::endl;");
      "    return 0;";
      "}" ].

Definition basic_h : string :=
  unlines
    [ "#ifndef BASIC_H";
      "#define BASIC_H";
      "";
      "class Basic {";
      "public:";
      "    void hello();";
      "};";
      "";
      "#endif" ].

Definition config_json : string :=
  unlines
    [ "{";
      ("    " +:+ dq +:+ "name" +:+ dq +:+ ": " +:+ dq +:+ "test" +:+ dq +:+ ",");
      ("    " +:+ dq +:+ "version" +:+ dq +:+ ": " +:+ dq +:+ "1.0.0" +:+ dq +:+ ",");
      ("    " +:+ dq +:+ "description" +:+ dq +:+ ": " +:+ dq +:+ "Test configuration" +:+ dq);
      "}" ].

Definition package_json : string :=
  unlines
    [ "{";
      ("    " +:+ dq +:+ "name" +:+ dq +:+ ": " +:+ dq +:+ "test-package" +:+ dq +:+ ",");
      ("    " +:+ dq +:+ "version" +:+ dq +:+ ": " +:+ dq +:+ "1.0.0" +:+ dq +:+ ",");
      ("    " +:+ dq +:+ "description" +:+ dq +:+ ": " +:+ dq +:+ "Test package" +:+ dq);
      "}" ].

Definition basic_html : string :=
  unlines
    [ "<!DOCTYPE html>";
      "<html>";
      "<head>";
      "    <title>Test Page</title>";
      "</head>";
      "<body>";
      "    <h1>Hello World</h1>";
      "</body>";
      "</html>" ].

Definition basic_css : string :=
  unlines
    [ "body {";
      "    font-family: Arial, sans-serif;";
      "    margin: 0;";
      "    padding: 20px;";
      "}";
      "";
      "h1 {";
      "    color: #333;";
      "}" ].

Definition basic_sh : string :=
  unlines
    [ "#!/bin/bash";
      "";
      ("echo " +:+ dq +:+ "Hello, World!" +:+ dq);
      "";
      "exit 0" ].

Definition readme_content : string :=
  unlines
    [ "# Test Files for Copyright Notice Extension";
      "";
      "This directory contains test files to verify the copyright notice extension works correctly.";
      "";
      "## File Types Generated";
      "";
      "### JavaScript/TypeScript";
      "- `basic.js` - Basic JS without copyright notice";
      "- `with_copyright.js` - JS with existing copyright notice";
      "- `different_copyright.js` - JS with different copyright format";
      "- `basic.ts` - Basic TypeScript without copyright notice";
      "- `with_copyright.ts` - TypeScript with existing copyright and timestamps";
      "";
      "### AutoHotkey";
      "- `basic.ahk` - Basic AutoHotkey without copyright notice";
      "- `basic.ahk2` - AutoHotkey v2 without copyright notice";
      "- `with_copyright.ahk` - AutoHotkey with existing copyright notice";
      "";
      "### Python";
      "- `basic.py` - Basic Python without copyright notice";
      "- `with_copyright.py` - Python with existing copyright notice";
      "";
      "### C++";
      "- `basic.cpp` - Basic C++ without copyright notice";
      "- `basic.h` - Basic C++ header without copyright notice";
      "";
      "### Excluded Files (JSON)";
      "- `config.json` - Should be excluded from copyright notices";
      "- `package.json` - Should be excluded from copyright notices";
      "";
      "### Other";
      "- `basic.html` - Basic HTML without copyright notice";
      "- `basic.css` - Basic CSS without copyright notice";
      "- `basic.sh` - Basic shell script without copyright notice";
      "";
      "## Testing Instructions";
      "";
      "1. Copy `test_settings.json` to your VS Code settings";
      "2. Open each test file in VS Code";
      "3. Verify that copyright notices are added to appropriate files";
      "4. Verify that JSON files are excluded";
      ("5. Test the manual command: `Ctrl+Shift+P` → " +:+ dq +:+ "Apply Copyright Notice" +:+ dq);
      "";
      "## Expected Behavior";
      "";
      "- Files without copyright notices should get them added automatically";
      "- Files with existing copyright notices should remain unchanged (or get timestamps updated if enabled)";
      "- JSON files should be excluded from copyright notices";
      "- .ahk2 files should work properly even if VS Code doesn't recognize the language ID";
      "";
      "## VS Code Settings";
      "";
      "Use the provided `test_settings.json` file to configure the extension for testing." ].

End Literal.

(** ** What a run is observed by *)

#[global] Instance node_eq_dec : EqDecision node := ltac:(solve_decision).

(** The status the process ends with: zero when [main] returns, the code
    of [sys.exit], and one when any other exception reaches the top level,
    which the interpreter reports with a traceback. *)
Definition exit_status (r : result unit) : Z :=
  match r with
  | Ok _ => 0
  | Raise (SystemExit code) => code
  | Raise (OSError _ _) => 1
  end.

(** The argument of the command line: [argv[1]] when it is there, and
    [test_files] otherwise. *)
Definition output_dir_arg (argv : list string) : string := nth 1 argv "test_files".

(** The nineteen file names of section 6 of the specification. *)
Definition fixed_filenames : list string :=
  [ "basic.js"; "with_copyright.js"; "different_copyright.js";
    "basic.ts"; "with_copyright.ts";
    "basic.ahk"; "basic.ahk2"; "with_copyright.ahk";
    "basic.py"; "with_copyright.py";
    "basic.cpp"; "basic.h";
    "config.json"; "package.json";
    "basic.html"; "basic.css"; "basic.sh";
    "test_settings.json";
    "README.md" ].

(** The paths of those names in directory [d]. *)
Definition fixed_paths (d : list string) : list (list string) :=
  (fun n => d ++ [n]) <$> fixed_filenames.

(** A fresh output directory: an empty directory, or nothing yet in a
    directory that is there. *)
Definition fresh_dir (m : gmap (list string) node) (d : list string) : bool :=
  bool_decide (entries m d = [])
  && match node_at m d with
     | Some Dir => true
     | Some (File _) => false
     | None => bool_decide (node_at m (parent d) = Some Dir)
     end.

(** Every entry of [d] has a name other than the nineteen. *)
Definition only_other_names (m : gmap (list string) node) (d : list string) : bool :=
  forallb (fun k => bool_decide (k ∉ fixed_paths d)) (entries m d).

(** The events of a run that took the world from [w] to [w']. *)
Definition events_since (w w' : world) : list event :=
  drop (length (trace w)) (trace w').

(** The write that failed, if one did. *)
Fixpoint failed_write (evs : list event) : option (list string * exn) :=
  match evs with
  | [] => None
  | WriteFailed k e :: _ => Some (k, e)
  | _ :: r => failed_write r
  end.

(** The files written, with their text. *)
Fixpoint written (evs : list event) : list (list string * string) :=
  match evs with
  | [] => []
  | Wrote k c :: r => (k, c) :: written r
  | _ :: r => written r
  end.

(** The keys section 8 of the specification gives the settings document,
    and the document as it describes it. *)
Definition claimed_keys : list string :=
  [ "fileExtensions"; "excludedFiles"; "template"; "includeTimestamp";
    "timestampFormat"; "includeUpdateTime"; "updateTimeFormat" ].

Definition settings_as_claimed (text : string) : Prop :=
  ∃ v ks, loads text = Some v ∧ keys v = Some ks
    ∧ (∀ k, k ∈ ks ↔ k ∈ claimed_keys)
    ∧ get "includeTimestamp" v = Some (JBool true)
    ∧ get "includeUpdateTime" v = Some (JBool true).

(** The keys the script gives it. *)
Definition settings_keys : list string :=
  [ "copyright-notice.fileExtensions"; "copyright-notice.excludedFiles";
    "copyright-notice.template"; "copyright-notice.includeTimestamp";
    "copyright-notice.timestampFormat"; "copyright-notice.includeUpdateTime";
    "copyright-notice.updateTimeFormat" ].

(** ** Sample environments

    A working directory, a clock, two oracles and a few trees to run the
    script in. *)

Definition home : list string := ["home"; "user"].

Definition noon (t : nat) : string := "2024-01-01 12:00:00".

Definition no_fault (op : io_op) (k : list string) : option (oserror * string) := None.

(** The disk is full when [basic.py] is written. *)
Definition disk_full (op : io_op) (k : list string) : option (oserror * string) :=
  match op with
  | OpWrite =>
      if bool_decide (k = home ++ ["test_files"; "basic.py"])
      then Some (OtherOSError, "[Errno 28] No space left on device")
      else None
  | _ => None
  end.

Definition tree (l : list (list string * node)) : world :=
  {| fs := list_to_map l; stdout := []; clock := 0; trace := [] |}.

(** Nothing but the working directory. *)
Definition bare : world :=
  tree [ (["home"], Dir); (home, Dir) ].

(** An output directory that holds two files of the user. *)
Definition used : world :=
  tree [ (["home"], Dir); (home, Dir); (home ++ ["test_files"], Dir);
         (home ++ ["test_files"; "notes.txt"], File "keep me");
         (home ++ ["test_files"; ".hidden"], File "") ].

(** A regular file where the output directory should be. *)
Definition blocked : world :=
  tree [ (["home"], Dir); (home, Dir); (home ++ ["test_files"], File "not a directory") ].

(** A directory where [basic.py] should be written. *)
Definition obstructed : world :=
  tree [ (["home"], Dir); (home, Dir); (home ++ ["test_files"], Dir);
         (home ++ ["test_files"; "basic.py"], Dir) ].

(** ** The script *)

Section Script.

(** The environment of a run: the working directory, the wall clock as
    [strftime] renders it at each reading, and the faults the operating
    system injects into a call on a path whatever the directory tree
    looks like (a permission denied, a full disk). *)
Variable cwd : list string.
Variable now : nat -> string.
Variable fault : io_op -> list string -> option (oserror * string).

(** Where a path leads from the working directory. *)
Definition resolve (p : Path) : list string :=
  if anchored p then parts p else cwd ++ parts p.

(** [p.absolute()]: the path itself when it is absolute, and the working
    directory joined with it otherwise. *)
Definition absolute (p : Path) : Path :=
  if anchored p then p else {| root := "/"; parts := cwd ++ parts p |}.

Definition os_error (cls : oserror) (what : string) (p : Path) : exn :=
  OSError cls (what +:+ ": '" +:+ path_str p +:+ "'").

(** The directories on the way to [p], from the first one below where
    the walk starts (the root, or the working directory) down to the
    parent of [p]. *)
Definition way (p : Path) : list (list string) :=
  (fun n => (if anchored p then [] else cwd) ++ take n (parts p))
    <$> seq 1 (length (parts p) - 1).

(** The walk to [p] stops at a regular file: the first node on the way
    that is not a directory is one. *)
Definition blocked_by_file (m : gmap (list string) node) (p : Path) : bool :=
  match list_find (fun a => m !! a ≠ Some Dir) (way p) with
  | Some (_, a) =>
      match m !! a with
      | Some (File _) => true
      | _ => false
      end
  | None => false
  end.

(** The error of a call on [p] when the parent of [p] is not there: the
    system walks down to it and reports the first component that is not
    a directory, a regular file ([ENOTDIR]) or nothing ([ENOENT]). *)
Definition no_parent (m : gmap (list string) node) (p : Path) : exn :=
  os_error
    (if blocked_by_file m p then NotADirectoryError else FileNotFoundError)
    (if blocked_by_file m p then "[Errno 20] Not a directory"
     else "[Errno 2] No such file or directory")
    p.

Definition injected (f : oserror * string) : exn := OSError (fst f) (snd f).

(** [p.mkdir(exist_ok=True)]: [os.mkdir], whose [FileExistsError] is
    swallowed when [p] is a directory.  [parents] keeps its default,
    [False]: a missing parent is an error, [FileNotFoundError] or, with
    a regular file on the way to it, [NotADirectoryError]. *)
Definition mkdir_exist_ok (p : Path) : M unit := fun w =>
  let k := resolve p in
  match node_at (fs w) k with
  | Some Dir => (Ok tt, w)
  | Some (File _) => (Raise (os_error FileExistsError "[Errno 17] File exists" p), w)
  | None =>
      match node_at (fs w) (parent k) with
      | None => (Raise (no_parent (fs w) p), w)
      | Some (File _) =>
          (Raise (os_error NotADirectoryError "[Errno 20] Not a directory" p), w)
      | Some Dir =>
          match fault OpMkdir k with
          | Some f => (Raise (injected f), w)
          | None =>
              (Ok tt, {| fs := <[k := Dir]> (fs w); stdout := stdout w;
                         clock := clock w; trace := trace w ++ [MadeDir k] |})
          end
      end
  end.

Definition failed (k : list string) (e : exn) (w : world) : result unit * world :=
  (Raise e, {| fs := fs w; stdout := stdout w; clock := clock w;
               trace := trace w ++ [WriteFailed k e] |}).

(** [open(p, 'w', encoding='utf-8')]: the file is created, or emptied
    when it is there. *)
Definition open_w (p : Path) : M unit := fun w =>
  let k := resolve p in
  match node_at (fs w) k with
  | Some Dir => failed k (os_error IsADirectoryError "[Errno 21] Is a directory" p) w
  | _ =>
      match node_at (fs w) (parent k) with
      | None => failed k (no_parent (fs w) p) w
      | Some (File _) => failed k (os_error NotADirectoryError "[Errno 20] Not a directory" p) w
      | Some Dir =>
          match fault OpOpen k with
          | Some f => failed k (injected f) w
          | None =>
              (Ok tt, {| fs := <[k := File ""]> (fs w); stdout := stdout w;
                         clock := clock w; trace := trace w |})
          end
      end
  end.

(** [f.write(content)] and the close that ends the [with] block, on the
    file opened at [p]. *)
Definition f_write (p : Path) (content : string) : M unit := fun w =>
  let k := resolve p in
  match fault OpWrite k with
  | Some f => failed k (injected f) w
  | None =>
      (Ok tt, {| fs := <[k := File content]> (fs w); stdout := stdout w;
                 clock := clock w; trace := trace w ++ [Wrote k content] |})
  end.

(** [print(s)]; [print()] is [print ""]. *)
Definition print (s : string) : M unit := fun w =>
  (Ok tt, {| fs := fs w; stdout := stdout w ++ [s]; clock := clock w; trace := trace w |}).

(** [datetime.now().strftime("%Y-%m-%d %H:%M:%S")] *)
Definition strftime_now : M string := fun w =>
  (Ok (now (clock w)),
   {| fs := fs w; stdout := stdout w; clock := S (clock w); trace := trace w |}).

(** [len(list(d.glob("*")))]: the directory is listed, hidden entries
    too. *)
Definition glob_count (d : Path) : M nat := fun w =>
  (Ok (length (entries (fs w) (resolve d))), w).

(** [sys.exit(code)] *)
Definition sys_exit (code : Z) : M unit := raise (SystemExit code).

(** *** class TestFileGenerator *)

Record TestFileGenerator := { output_dir : Path }.

(** [__init__(self, output_dir)] *)
Definition init (dir : string) : M TestFileGenerator :=
  let self := {| output_dir := Path_of dir |} in
  mkdir_exist_ok self.(output_dir) ;;;
  ret self.

(** [log(self, message)], which reads no field of [self]. *)
Definition log (message : string) : M unit :=
  timestamp <- strftime_now ;;
  print ("[" +:+ timestamp +:+ "] " +:+ message).

(** [create_file(self, filename, content, description)] *)
Definition create_file (self : TestFileGenerator)
    (filename content description : string) : M Path :=
  let filepath := truediv self.(output_dir) filename in
  open_w filepath ;;;
  f_write filepath content ;;;
  log ("✓ Created " +:+ filename +:+ " (" +:+ str_nat (py_len content)
       +:+ " chars) - " +:+ description) ;;;
  ret filepath.

Definition generate_js_files (self : TestFileGenerator) : M unit :=
  log "Generating JavaScript test files..." ;;;
  create_file self "basic.js" Literal.basic_js
    "Basic JS without copyright notice" ;;;
  create_file self "with_copyright.js" Literal.with_copyright_js
    "JS with existing copyright notice" ;;;
  create_file self "different_copyright.js" Literal.different_copyright_js
    "JS with different copyright format" ;;;
  ret tt.

Definition generate_ts_files (self : TestFileGenerator) : M unit :=
  log "Generating TypeScript test files..." ;;;
  create_file self "basic.ts" Literal.basic_ts
    "Basic TypeScript without copyright notice" ;;;
  create_file self "with_copyright.ts" Literal.with_copyright_ts
    "TypeScript with existing copyright and timestamps" ;;;
  ret tt.

Definition generate_ahk_files (self : TestFileGenerator) : M unit :=
  log "Generating AutoHotkey test files..." ;;;
  create_file self "basic.ahk" Literal.basic_ahk
    "Basic AutoHotkey without copyright notice" ;;;
  create_file self "basic.ahk2" Literal.basic_ahk2
    "AutoHotkey v2 without copyright notice" ;;;
  create_file self "with_copyright.ahk" Literal.with_copyright_ahk
    "AutoHotkey with existing copyright notice" ;;;
  ret tt.

Definition generate_py_files (self : TestFileGenerator) : M unit :=
  log "Generating Python test files..." ;;;
  create_file self "basic.py" Literal.basic_py
    "Basic Python without copyright notice" ;;;
  create_file self "with_copyright.py" Literal.with_copyright_py
    "Python with existing copyright notice" ;;;
  ret tt.

Definition generate_cpp_files (self : TestFileGenerator) : M unit :=
  log "Generating C++ test files..." ;;;
  create_file self "basic.cpp" Literal.basic_cpp
    "Basic C++ without copyright notice" ;;;
  create_file self "basic.h" Literal.basic_h
    "Basic C++ header without copyright notice" ;;;
  ret tt.

Definition generate_json_files (self : TestFileGenerator) : M unit :=
  log "Generating JSON files (should be excluded)..." ;;;
  create_file self "config.json" Literal.config_json
    "JSON config file (should be excluded)" ;;;
  create_file self "package.json" Literal.package_json
    "JSON package file (should be excluded)" ;;;
  ret tt.

Definition generate_mixed_files (self : TestFileGenerator) : M unit :=
  log "Generating mixed content files..." ;;;
  create_file self "basic.html" Literal.basic_html
    "Basic HTML without copyright notice" ;;;
  create_file self "basic.css" Literal.basic_css
    "Basic CSS without copyright notice" ;;;
  create_file self "basic.sh" Literal.basic_sh
    "Basic shell script without copyright notice" ;;;
  ret tt.

(** The settings literal. *)
Definition settings : json :=
  JObj
    [ ("copyright-notice.fileExtensions",
       JArr [ JStr ".js"; JStr ".jsx"; JStr ".ts"; JStr ".tsx"; JStr ".py";
              JStr ".cpp"; JStr ".h"; JStr ".ahk"; JStr ".ahk2" ]);
      ("copyright-notice.excludedFiles",
       JArr [ JStr "*.json"; JStr "*.config.js"; JStr "package.json";
              JStr "tsconfig.json" ]);
      ("copyright-notice.template",
       JStr (unlines
               [ "/**";
                 " * Copyright (c) {year} Test Company";
                 " * All rights reserved.";
                 " */";
                 "" ]));
      ("copyright-notice.includeTimestamp", JBool true);
      ("copyright-notice.timestampFormat", JStr "YYYY-MM-DD HH:mm:ss");
      ("copyright-notice.includeUpdateTime", JBool true);
      ("copyright-notice.updateTimeFormat", JStr "YYYY-MM-DD HH:mm:ss") ].

(** [json.dump(settings, f, indent=4)] hands the text to [f.write] piece
    by piece; the pieces are written here as one. *)
Definition generate_vscode_settings (self : TestFileGenerator) : M unit :=
  log "Generating VS Code settings..." ;;;
  let settings_path := truediv self.(output_dir) "test_settings.json" in
  open_w settings_path ;;;
  f_write settings_path (dumps settings 4) ;;;
  log "✓ Created test_settings.json - VS Code settings for testing".

Definition generate_readme (self : TestFileGenerator) : M unit :=
  log "Generating test README..." ;;;
  let readme_path := truediv self.(output_dir) "README.md" in
  open_w readme_path ;;;
  f_write readme_path Literal.readme_content ;;;
  log "✓ Created README.md - Testing instructions".

(** The body of the [try] statement of [generate_all]. *)
Definition generate_all_body (self : TestFileGenerator) : M unit :=
  generate_js_files self ;;;
  print "" ;;;
  generate_ts_files self ;;;
  print "" ;;;
  generate_ahk_files self ;;;
  print "" ;;;
  generate_py_files self ;;;
  print "" ;;;
  generate_cpp_files self ;;;
  print "" ;;;
  generate_json_files self ;;;
  print "" ;;;
  generate_mixed_files self ;;;
  print "" ;;;
  generate_vscode_settings self ;;;
  print "" ;;;
  generate_readme self ;;;
  print "" ;;;
  file_count <- glob_count self.(output_dir) ;;
  log "=== Test file generation completed ===" ;;;
  log ("Generated " +:+ str_nat file_count +:+ " files in "
       +:+ path_str self.(output_dir)) ;;;
  log "Use these files to test the copyright notice extension!".

(** [generate_all] returns [False] from the handler and [True] after the
    [try] statement. *)
Definition generate_all (self : TestFileGenerator) : M bool :=
  log "=== Starting Test File Generation ===" ;;;
  log ("Output directory: " +:+ path_str (absolute self.(output_dir))) ;;;
  print "" ;;;
  try_except
    (generate_all_body self ;;; ret true)
    (fun e =>
       log ("ERROR: Failed to generate test files: " +:+ exn_str e) ;;;
       ret false).

(** [main()], with [sys.argv] as its argument. *)
Definition main (argv : list string) : M unit :=
  let dir :=
    if bool_decide (1 < length argv) then nth 1 argv "" else "test_files" in
  generator <- init dir ;;
  success <- generate_all generator ;;
  if success : bool then
    print (nl +:+ "Test files generated successfully in: "
           +:+ path_str (absolute generator.(output_dir))) ;;;
    print "You can now use these files to test the copyright notice extension!"
  else
    print (nl +:+ "Failed to generate test files.") ;;;
    sys_exit 1.

(** *** The catalog

    What [generate_all] writes, in the order it writes it: the file names
    of section 6 of the specification with the text of each. *)

Definition catalog : list (string * string) :=
  [ ("basic.js", Literal.basic_js);
    ("with_copyright.js", Literal.with_copyright_js);
    ("different_copyright.js", Literal.different_copyright_js);
    ("basic.ts", Literal.basic_ts);
    ("with_copyright.ts", Literal.with_copyright_ts);
    ("basic.ahk", Literal.basic_ahk);
    ("basic.ahk2", Literal.basic_ahk2);
    ("with_copyright.ahk", Literal.with_copyright_ahk);
    ("basic.py", Literal.basic_py);
    ("with_copyright.py", Literal.with_copyright_py);
    ("basic.cpp", Literal.basic_cpp);
    ("basic.h", Literal.basic_h);
    ("config.json", Literal.config_json);
    ("package.json", Literal.package_json);
    ("basic.html", Literal.basic_html);
    ("basic.css", Literal.basic_css);
    ("basic.sh", Literal.basic_sh);
    ("test_settings.json", dumps settings 4);
    ("README.md", Literal.readme_content) ].

(** The resolved path of a file of the output directory. *)
Definition target (self : TestFileGenerator) (n : string) : list string :=
  resolve (truediv self.(output_dir) n).

(** One file opened and written, and a list of them in order: what is
    left of the script when the log is taken away. *)
Definition put (self : TestFileGenerator) (n c : string) : M unit :=
  let p := truediv self.(output_dir) n in
  open_w p ;;; f_write p c.

Fixpoint run_puts (self : TestFileGenerator) (ps : list (string * string)) : M unit :=
  match ps with
  | [] => ret tt
  | nc :: r => put self nc.1 nc.2 ;;; run_puts self r
  end.

(** The tree after the files of [ps] are written. *)
Definition write_all (self : TestFileGenerator) (ps : list (string * string))
    (m : gmap (list string) node) : gmap (list string) node :=
  foldl (fun m nc => <[target self nc.1 := File nc.2]> m) m ps.

(** The text [ps] leaves at [k], if it writes there: the last one wins. *)
Fixpoint last_put (self : TestFileGenerator) (ps : list (string * string))
    (k : list string) : option string :=
  match ps with
  | [] => None
  | nc :: r =>
      match last_put self r k with
      | Some c => Some c
      | None => if decide (target self nc.1 = k) then Some nc.2 else None
      end
  end.

(** No fault is injected into [op] on [k]. *)
Definition quiet (op : io_op) (k : list string) : bool :=
  match fault op k with
  | None => true
  | Some _ => false
  end.

(** No fault is injected into a write of one of the nineteen files of
    directory [d]. *)
Definition no_write_raises (d : list string) : bool :=
  forallb (fun k => quiet OpOpen k && quiet OpWrite k) (fixed_paths d).

(** A line of the log: what [log] prints when the clock reads [t]. *)
Definition stamped (t : nat) (message : string) : string :=
  "[" +:+ now t +:+ "] " +:+ message.

(** The output directory, resolved. *)
Definition out_dir (self : TestFileGenerator) : list string :=
  resolve self.(output_dir).

(** A file name that is a single path component. *)
Definition simple (n : string) : Prop :=
  Path_of n = {| root := ""; parts := [n] |}.

(** The resolved paths [ps] writes to. *)
Definition targets (self : TestFileGenerator) (ps : list (string * string)) :
    list (list string) :=
  (fun nc => target self nc.1) <$> ps.

Definition wrote (self : TestFileGenerator) (nc : string * string) : event :=
  Wrote (target self nc.1) nc.2.

(** Two worlds with the same files and the same history; the log and the
    clock may differ. *)
Definition sim (w1 w2 : world) : Prop := fs w1 = fs w2 ∧ trace w1 = trace w2.

Definition outcome {A} (r : result A) : option exn :=
  match r with
  | Ok _ => None
  | Raise e => Some e
  end.

(** [m] does to the files what writing [ps] does, and fails where that
    fails. *)
Definition refines {A} (self : TestFileGenerator) (m : M A)
    (ps : list (string * string)) : Prop :=
  ∀ w1 w2, sim w1 w2 →
    outcome (m w1).1 = outcome (run_puts self ps w2).1
    ∧ sim (m w1).2 (run_puts self ps w2).2.

(** *** Two sentences of the specification, as it states them *)


(** Section 7: a failure to create the directory is caught, logged, and
    turned into a failure of the process; no file is written. *)
Definition caught_and_logged (argv : list string) (w : world) : Prop :=
  ∀ e w1, mkdir_exist_ok (Path_of (output_dir_arg argv)) w = (Raise e, w1) →
    let r := main argv w in
    (∀ cls msg, r.1 ≠ Raise (OSError cls msg))
    ∧ stdout r.2 ≠ stdout w
    ∧ exit_status r.1 ≠ 0%Z
    ∧ fs r.2 = fs w.


(** *** More of what a run is observed by *)

(** A line of the log as the script formats it: blank, or stamped. *)
Definition line_ok (line : string) : Prop :=
  line = "" ∨ ∃ t message, line = stamped t message.

(** [m] only adds lines to the output, each of them a line of the log. *)
Definition appends {A} (m : M A) : Prop :=
  ∀ w, ∃ l, stdout (m w).2 = stdout w ++ l ∧ Forall line_ok l.

(** The methods that write files, in the order [generate_all] calls them,
    each with the files it writes. *)
Definition writers : list ((TestFileGenerator → M unit) * list (string * string)) :=
  [ (generate_js_files,
     [ ("basic.js", Literal.basic_js);
       ("with_copyright.js", Literal.with_copyright_js);
       ("different_copyright.js", Literal.different_copyright_js) ]);
    (generate_ts_files,
     [ ("basic.ts", Literal.basic_ts);
       ("with_copyright.ts", Literal.with_copyright_ts) ]);
    (generate_ahk_files,
     [ ("basic.ahk", Literal.basic_ahk);
       ("basic.ahk2", Literal.basic_ahk2);
       ("with_copyright.ahk", Literal.with_copyright_ahk) ]);
    (generate_py_files,
     [ ("basic.py", Literal.basic_py);
       ("with_copyright.py", Literal.with_copyright_py) ]);
    (generate_cpp_files,
     [ ("basic.cpp", Literal.basic_cpp);
       ("basic.h", Literal.basic_h) ]);
    (generate_json_files,
     [ ("config.json", Literal.config_json);
       ("package.json", Literal.package_json) ]);
    (generate_mixed_files,
     [ ("basic.html", Literal.basic_html);
       ("basic.css", Literal.basic_css);
       ("basic.sh", Literal.basic_sh) ]);
    (generate_vscode_settings,
     [ ("test_settings.json", dumps settings 4) ]);
    (generate_readme,
     [ ("README.md", Literal.readme_content) ]) ].

(** *** How computations compose *)

Lemma sim_refl w : sim w w.
Proof. by split. Qed.

Lemma sim_trans w1 w2 w3 : sim w1 w2 → sim w2 w3 → sim w1 w3.
Proof. intros [? ?] [? ?]. split; congruence. Qed.

Lemma open_w_sim p w1 w2 :
  sim w1 w2 →
  outcome (open_w p w1).1 = outcome (open_w p w2).1
  ∧ sim (open_w p w1).2 (open_w p w2).2.
Proof.
  intros [Hf Ht]. unfold open_w, failed. rewrite Hf, Ht.
  repeat case_match; simpl; split; try done; split; simpl; congruence.
Qed.

Lemma f_write_sim p c w1 w2 :
  sim w1 w2 →
  outcome (f_write p c w1).1 = outcome (f_write p c w2).1
  ∧ sim (f_write p c w1).2 (f_write p c w2).2.
Proof.
  intros [Hf Ht]. unfold f_write, failed. rewrite Hf, Ht.
  case_match; simpl; split; try done; split; simpl; congruence.
Qed.

Lemma run_puts_app self ps1 ps2 w :
  run_puts self (ps1 ++ ps2) w = (run_puts self ps1 ;;; run_puts self ps2) w.
Proof.
  revert w. induction ps1 as [|nc ps1 IH]; intros w; [done|].
  cbn [app run_puts]. unfold bind.
  destruct (put self nc.1 nc.2 w) as [[[]|e] w1]; [|done].
  rewrite IH. done.
Qed.

Lemma refines_eq {A} self (m : M A) ps ps' :
  refines self m ps → ps = ps' → refines self m ps'.
Proof. by intros H <-. Qed.

Lemma refines_quiet {A} self (m : M A) :
  (∀ w, outcome (m w).1 = None ∧ sim (m w).2 w) → refines self m [].
Proof.
  intros H w1 w2 Hs. destruct (H w1) as [Ho Hw]. split; [done|].
  by eapply sim_trans.
Qed.

Lemma refines_ret {A} self (a : A) : refines self (ret a) [].
Proof. apply refines_quiet. intros w. split; [done | apply sim_refl]. Qed.

Lemma refines_print self s : refines self (print s) [].
Proof. apply refines_quiet. intros w. by split. Qed.

Lemma refines_log self message : refines self (log message) [].
Proof. apply refines_quiet. intros w. by split. Qed.

Lemma refines_glob_count self d : refines self (glob_count d) [].
Proof. apply refines_quiet. intros w. by split. Qed.

Lemma refines_bind {A B} self (m : M A) (f : A → M B) ps1 ps2 :
  refines self m ps1 → (∀ a, refines self (f a) ps2) →
  refines self (bind m f) (ps1 ++ ps2).
Proof.
  intros Hm Hf w1 w2 Hs. rewrite run_puts_app. unfold bind.
  destruct (Hm w1 w2 Hs) as [Ho Hw].
  destruct (m w1) as [[a|e1] w1'], (run_puts self ps1 w2) as [[[]|e2] w2'];
    simpl in Ho, Hw; try discriminate.
  - by apply Hf.
  - by split.
Qed.

Lemma refines_open_write {A} self n c (k : unit → M A) ps :
  (∀ a, refines self (k a) ps) →
  refines self
    (bind (open_w (truediv self.(output_dir) n))
       (fun _ => bind (f_write (truediv self.(output_dir) n) c) k))
    ((n, c) :: ps).
Proof.
  intros Hk w1 w2 Hs. cbn [run_puts fst snd]. unfold put, bind.
  set (p := truediv self.(output_dir) n).
  destruct (open_w_sim p w1 w2 Hs) as [Ho Hw].
  destruct (open_w p w1) as [[[]|e1] w1'], (open_w p w2) as [[[]|e2] w2'];
    simpl in Ho, Hw; try discriminate; [|by split].
  destruct (f_write_sim p c w1' w2' Hw) as [Ho' Hw'].
  destruct (f_write p c w1') as [[[]|e1] w1''],
           (f_write p c w2') as [[[]|e2] w2''];
    simpl in Ho', Hw'; try discriminate; [|by split].
  by apply Hk.
Qed.

Lemma refines_create_file self n c description :
  refines self (create_file self n c description) [(n, c)].
Proof.
  unfold create_file. apply refines_open_write. intros _.
  apply (refines_bind self _ _ [] []); [apply refines_log | intros _; apply refines_ret].
Qed.

Ltac refines_step :=
  lazymatch goal with
  | |- refines _ (bind (open_w _) _) _ => eapply refines_open_write; intros ?
  | |- refines _ (bind _ _) _ => eapply refines_bind; [ | intros ? ]
  | |- refines _ (log _) _ => apply refines_log
  | |- refines _ (print _) _ => apply refines_print
  | |- refines _ (ret _) _ => apply refines_ret
  | |- refines _ (glob_count _) _ => apply refines_glob_count
  | |- refines _ (create_file _ _ _ _) _ => apply refines_create_file
  end.

(** The files [generate_all] writes are those of the catalog, in its
    order, and a failure of the one is a failure of the other. *)
Lemma generate_all_body_refines self :
  refines self (generate_all_body self) catalog.
Proof.
  unfold generate_all_body, generate_js_files, generate_ts_files,
    generate_ahk_files, generate_py_files, generate_cpp_files,
    generate_json_files, generate_mixed_files, generate_vscode_settings,
    generate_readme.
  cbv zeta.
  eapply refines_eq; [repeat refines_step | reflexivity].
Qed.

(** *** One file *)

Lemma put_ok self n c w w' :
  put self n c w = (Ok tt, w') →
  fs w' = <[target self n := File c]> (fs w)
  ∧ trace w' = trace w ++ [Wrote (target self n) c]
  ∧ stdout w' = stdout w ∧ clock w' = clock w.
Proof.
  unfold put, bind, open_w, f_write, failed, target.
  repeat case_match; intros; simplify_eq; simpl.
  all: by rewrite insert_insert_eq.
Qed.

Lemma put_raise self n c e w w' :
  put self n c w = (Raise e, w') →
  is_Exception e = true
  ∧ trace w' = trace w ++ [WriteFailed (target self n) e]
  ∧ (∀ k, k ≠ target self n → fs w' !! k = fs w !! k)
  ∧ (is_Some (fs w !! target self n) → is_Some (fs w' !! target self n))
  ∧ stdout w' = stdout w ∧ clock w' = clock w.
Proof.
  unfold put, bind, open_w, f_write, failed, target, os_error, injected.
  repeat case_match; intros; simplify_eq; simpl.
  all: repeat split; try done.
  all: try (intros k Hk; by rewrite lookup_insert_ne).
  all: intros _; rewrite lookup_insert_eq; by eexists.
Qed.

Lemma put_succeeds self n c w :
  node_at (fs w) (target self n) ≠ Some Dir →
  node_at (fs w) (parent (target self n)) = Some Dir →
  fault OpOpen (target self n) = None →
  fault OpWrite (target self n) = None →
  ∃ w', put self n c w = (Ok tt, w').
Proof.
  unfold put, bind, open_w, f_write, failed, target.
  intros Hk Hp Ho Hw. rewrite Hp, Ho. simpl. rewrite Hw.
  destruct (node_at (fs w) _) as [[]|] eqn:E; try done; by eexists.
Qed.

(** *** A list of files *)

Lemma write_all_cons self nc ps m :
  write_all self (nc :: ps) m
  = write_all self ps (<[target self nc.1 := File nc.2]> m).
Proof. done. Qed.

Lemma write_all_lookup self ps m k :
  write_all self ps m !! k =
  match last_put self ps k with
  | Some c => Some (File c)
  | None => m !! k
  end.
Proof.
  revert m. induction ps as [|nc ps IH]; intros m; [done|].
  rewrite write_all_cons, IH. cbn [last_put].
  destruct (last_put self ps k); [done|].
  case_decide as Hk; [subst; by rewrite lookup_insert_eq | by rewrite lookup_insert_ne].
Qed.

Lemma write_all_idempotent self ps m :
  write_all self ps (write_all self ps m) = write_all self ps m.
Proof.
  apply map_eq. intros k. rewrite !write_all_lookup.
  by destruct (last_put self ps k).
Qed.

Lemma last_put_not_target self ps k :
  k ∉ targets self ps → last_put self ps k = None.
Proof.
  induction ps as [|nc ps IH]; [done|]. cbn [targets fmap list_fmap last_put].
  intros [Hne Hk]%not_elem_of_cons. fold (targets self ps) in Hk.
  rewrite (IH Hk). by case_decide.
Qed.

Lemma last_put_target self ps nc :
  NoDup (targets self ps) → nc ∈ ps →
  last_put self ps (target self nc.1) = Some nc.2.
Proof.
  induction ps as [|nc' ps IH]; [by intros _ ?%elem_of_nil|].
  cbn [targets fmap list_fmap last_put]. fold (targets self ps).
  intros [Hfresh Hnd]%NoDup_cons [->|Hin]%elem_of_cons.
  - rewrite (last_put_not_target _ _ _ Hfresh). by case_decide.
  - by rewrite (IH Hnd Hin).
Qed.

Lemma write_all_frame self ps m k :
  k ∉ targets self ps → write_all self ps m !! k = m !! k.
Proof.
  intros Hk. by rewrite write_all_lookup, (last_put_not_target _ _ _ Hk).
Qed.

Lemma write_all_content self ps m nc :
  NoDup (targets self ps) → nc ∈ ps →
  write_all self ps m !! target self nc.1 = Some (File nc.2).
Proof.
  intros Hnd Hin. by rewrite write_all_lookup, (last_put_target _ _ _ Hnd Hin).
Qed.

Lemma write_all_keeps self ps m k :
  is_Some (m !! k) → is_Some (write_all self ps m !! k).
Proof.
  intros Hk. rewrite write_all_lookup. by destruct (last_put self ps k).
Qed.

Lemma run_puts_ok self ps w w' :
  run_puts self ps w = (Ok tt, w') →
  fs w' = write_all self ps (fs w)
  ∧ trace w' = trace w ++ (wrote self <$> ps)
  ∧ stdout w' = stdout w ∧ clock w' = clock w.
Proof.
  revert w. induction ps as [|nc ps IH]; intros w; cbn [run_puts].
  - intros [= <-]. by rewrite app_nil_r.
  - unfold bind. destruct (put self nc.1 nc.2 w) as [[[]|e] w1] eqn:Hput; [|done].
    intros Hrun. apply put_ok in Hput as (Hf & Ht & Hs & Hc).
    apply IH in Hrun as (-> & -> & -> & ->).
    rewrite Hf, Ht, Hs, Hc. cbn. by rewrite <- app_assoc.
Qed.

Lemma run_puts_raise self ps e w w' :
  run_puts self ps w = (Raise e, w') →
  is_Exception e = true
  ∧ ∃ pre nc post,
      ps = pre ++ nc :: post
      ∧ trace w' = trace w ++ (wrote self <$> pre) ++ [WriteFailed (target self nc.1) e]
      ∧ (∀ k, k ≠ target self nc.1 → fs w' !! k = write_all self pre (fs w) !! k)
      ∧ (is_Some (write_all self pre (fs w) !! target self nc.1) →
         is_Some (fs w' !! target self nc.1))
      ∧ stdout w' = stdout w ∧ clock w' = clock w.
Proof.
  revert w. induction ps as [|nc ps IH]; intros w; cbn [run_puts]; [done|].
  unfold bind. destruct (put self nc.1 nc.2 w) as [[[]|e1] w1] eqn:Hput.
  - intros Hrun. apply put_ok in Hput as (Hf & Ht & Hs & Hc).
    apply IH in Hrun as (He & pre & nc' & post & -> & Ht' & Hf' & Hk' & Hs' & Hc').
    split; [done|]. exists (nc :: pre), nc', post.
    rewrite write_all_cons. cbn [fmap list_fmap].
    rewrite Ht', Ht, Hs', Hs, Hc', Hc, <- Hf, <- !app_assoc. done.
  - intros [= -> ->]. apply put_raise in Hput as (He & Ht & Hf & Hk & Hs & Hc).
    split; [done|]. by exists [], nc, ps.
Qed.

(** *** The files of the output directory *)

Lemma target_simple self n : simple n → target self n = out_dir self ++ [n].
Proof.
  unfold simple, target, out_dir, truediv, resolve, anchored. intros ->. simpl.
  destruct (String.eqb (root (output_dir self)) ""); simpl;
    [by rewrite app_assoc | done].
Qed.

Lemma catalog_simple : Forall simple catalog.*1.
Proof. repeat constructor. Qed.

Lemma catalog_NoDup : NoDup catalog.*1.
Proof. apply (bool_decide_unpack _). by vm_compute. Qed.

Lemma parent_snoc (d : list string) n : parent (d ++ [n]) = d.
Proof. apply removelast_last. Qed.

Lemma node_at_snoc m (d : list string) n : node_at m (d ++ [n]) = m !! (d ++ [n]).
Proof. unfold node_at. by destruct d. Qed.

Lemma snoc_ne (d : list string) n : d ++ [n] ≠ d.
Proof. intros H. apply (f_equal length) in H. rewrite length_app in H. simpl in H. lia. Qed.

Lemma targets_simple self ps :
  Forall simple ps.*1 → targets self ps = (fun n => out_dir self ++ [n]) <$> ps.*1.
Proof.
  induction ps as [|nc ps IH]; [done|]. cbn. intros [Hn Hps]%Forall_cons.
  by rewrite (target_simple _ _ Hn), <- (IH Hps).
Qed.

Lemma targets_NoDup self ps :
  Forall simple ps.*1 → NoDup ps.*1 → NoDup (targets self ps).
Proof.
  intros Hs Hnd. rewrite (targets_simple _ _ Hs).
  apply NoDup_fmap_2; [|done]. intros n1 n2 H. by apply app_inj_1 in H as [_ [= ->]].
Qed.

Lemma entries_insert_new m d k v :
  m !! k = None →
  entries (<[k := v]> m) d ≡ₚ (if decide (is_entry d k) then [k] else []) ++ entries m d.
Proof.
  intros Hk. unfold entries. rewrite (map_to_list_insert m k v Hk).
  rewrite fmap_cons, filter_cons. simpl. by case_decide.
Qed.

Lemma entries_None m d n : entries m d = [] → m !! (d ++ [n]) = None.
Proof.
  intros He. destruct (m !! (d ++ [n])) as [x|] eqn:Hx; [|done].
  assert (d ++ [n] ∈ entries m d) as Hin; [|by rewrite He in Hin; apply elem_of_nil in Hin].
  unfold entries. apply list_elem_of_filter. split.
  - split; [by destruct d | apply parent_snoc].
  - apply list_elem_of_fmap. exists (d ++ [n], x). split; [done|].
    by apply elem_of_map_to_list.
Qed.

Lemma is_entry_snoc (d : list string) n : is_entry d (d ++ [n]).
Proof. split; [by destruct d | apply parent_snoc]. Qed.

Lemma entries_write_all self ps m :
  Forall simple ps.*1 → NoDup ps.*1 →
  (∀ n, n ∈ ps.*1 → m !! (out_dir self ++ [n]) = None) →
  length (entries (write_all self ps m) (out_dir self))
  = length ps + length (entries m (out_dir self)).
Proof.
  revert m. induction ps as [|[n0 c0] ps IH]; intros m; [done|].
  cbn [fmap list_fmap fst]. intros [Hn Hs]%Forall_cons [Hfresh Hnd]%NoDup_cons Hm.
  rewrite write_all_cons. cbn [fst snd]. rewrite (target_simple _ _ Hn), IH; [|done|done|].
  - rewrite entries_insert_new by (apply Hm; left).
    rewrite decide_True by apply is_entry_snoc. simpl. lia.
  - intros n Hin. rewrite lookup_insert_ne; [apply Hm; by right|].
    intros H. apply app_inj_1 in H as [_ [= ->]]; done.
Qed.

Lemma run_puts_succeeds self ps w :
  Forall simple ps.*1 →
  node_at (fs w) (out_dir self) = Some Dir →
  (∀ n, n ∈ ps.*1 →
     fs w !! (out_dir self ++ [n]) ≠ Some Dir
     ∧ fault OpOpen (out_dir self ++ [n]) = None
     ∧ fault OpWrite (out_dir self ++ [n]) = None) →
  ∃ w', run_puts self ps w = (Ok tt, w').
Proof.
  revert w. induction ps as [|[n0 c0] ps IH]; intros w; [by eexists|].
  cbn [fmap list_fmap run_puts fst snd]. intros [Hn Hs]%Forall_cons Hd Hok.
  destruct (Hok n0) as (Hk & Ho & Hw); [left|].
  destruct (put_succeeds self n0 c0 w) as [w1 Hput].
  { by rewrite (target_simple _ _ Hn), node_at_snoc. }
  { by rewrite (target_simple _ _ Hn), parent_snoc. }
  { by rewrite (target_simple _ _ Hn). }
  { by rewrite (target_simple _ _ Hn). }
  unfold bind. rewrite Hput.
  apply put_ok in Hput as (Hf & _). rewrite (target_simple _ _ Hn) in Hf.
  apply IH; [done| |].
  - rewrite Hf. unfold node_at in *. destruct (out_dir self) eqn:E; [done|].
    rewrite lookup_insert_ne; [done|]. rewrite <- E. apply snoc_ne.
  - intros n Hin. destruct (Hok n) as (Hk' & Ho' & Hw'); [by right|].
    split; [|done]. rewrite Hf.
    destruct (decide (n0 = n)) as [->|Hne].
    + by rewrite lookup_insert_eq.
    + rewrite lookup_insert_ne; [done|]. intros H. by apply app_inj_1 in H as [_ [= ->]].
Qed.

(** *** [generate_all] *)

Lemma bind_ok_inv {A B} (m : M A) (f : A → M B) w b w' :
  bind m f w = (Ok b, w') → ∃ a w1, m w = (Ok a, w1) ∧ f a w1 = (Ok b, w').
Proof.
  unfold bind. destruct (m w) as [[a|e] w1]; [|done]. intros H. by exists a, w1.
Qed.

(** When the body of the [try] statement ends, the number of entries it
    logged is the number the directory has then. *)
Lemma generate_all_body_count self w w' :
  generate_all_body self w = (Ok tt, w') →
  ∃ t, stamped t ("Generated "
                  +:+ str_nat (length (entries (fs w') (out_dir self)))
                  +:+ " files in " +:+ path_str self.(output_dir))
       ∈ stdout w'.
Proof.
  unfold generate_all_body. intros H.
  do 18 (apply bind_ok_inv in H as (? & ? & _ & H)).
  cbv [bind glob_count log strftime_now print] in H.
  injection H as <-. cbn [fs stdout clock]. eexists.
  apply elem_of_app. left. apply elem_of_app. right. apply list_elem_of_singleton.
  reflexivity.
Qed.

(** The world after the three lines [generate_all] prints first. *)
Lemma generate_all_unfold self w :
  ∃ w0, sim w0 w
    ∧ generate_all self w
      = try_except (generate_all_body self ;;; ret true)
          (fun e => log ("ERROR: Failed to generate test files: " +:+ exn_str e) ;;; ret false)
          w0.
Proof. eexists. split; [|reflexivity]. by split. Qed.

Lemma generate_all_true self w w0 :
  run_puts self catalog w = (Ok tt, w0) →
  ∃ w', generate_all self w = (Ok true, w')
    ∧ sim w' w0
    ∧ ∃ t, stamped t ("Generated "
                     +:+ str_nat (length (entries (fs w') (out_dir self)))
                     +:+ " files in " +:+ path_str self.(output_dir))
           ∈ stdout w'.
Proof.
  intros Hrun. destruct (generate_all_unfold self w) as (wa & Hsim & ->).
  destruct (generate_all_body_refines self wa w Hsim) as [Ho Hs].
  rewrite Hrun in Ho, Hs. simpl in Ho, Hs.
  unfold try_except, bind.
  destruct (generate_all_body self wa) as [[[]|e] w1] eqn:Hbody; [|done].
  exists w1. split; [done|]. split; [done|].
  by apply generate_all_body_count in Hbody.
Qed.

Lemma generate_all_false self w e w0 :
  run_puts self catalog w = (Raise e, w0) →
  ∃ w', generate_all self w = (Ok false, w')
    ∧ sim w' w0
    ∧ ∃ t, last (stdout w')
           = Some (stamped t ("ERROR: Failed to generate test files: " +:+ exn_str e)).
Proof.
  intros Hrun. destruct (generate_all_unfold self w) as (wa & Hsim & ->).
  destruct (generate_all_body_refines self wa w Hsim) as [Ho Hs].
  rewrite Hrun in Ho, Hs. simpl in Ho, Hs.
  apply run_puts_raise in Hrun as [He _].
  unfold try_except, bind.
  destruct (generate_all_body self wa) as [[[]|e1] w1] eqn:Hbody; [done|].
  simpl in Ho. injection Ho as ->. rewrite He.
  cbv [log bind strftime_now print ret]. eexists. split; [done|]. split; [done|].
  cbn [stdout]. eexists. apply last_snoc.
Qed.

(** *** The constructor and [main] *)

Lemma mkdir_raise p e w w1 :
  mkdir_exist_ok p w = (Raise e, w1) → w1 = w ∧ ∃ cls msg, e = OSError cls msg.
Proof.
  unfold mkdir_exist_ok, os_error, injected.
  repeat case_match; intros; simplify_eq; split; try done; by do 2 eexists.
Qed.

Lemma mkdir_ok p w w1 :
  mkdir_exist_ok p w = (Ok tt, w1) →
  stdout w1 = stdout w ∧ clock w1 = clock w
  ∧ node_at (fs w1) (resolve p) = Some Dir
  ∧ ((fs w1 = fs w ∧ trace w1 = trace w)
     ∨ (node_at (fs w) (resolve p) = None
        ∧ fs w1 = <[resolve p := Dir]> (fs w)
        ∧ trace w1 = trace w ++ [MadeDir (resolve p)])).
Proof.
  unfold mkdir_exist_ok.
  destruct (node_at (fs w) (resolve p)) as [[]|] eqn:Hk; [|done|].
  - intros [= <-]. repeat split; try done. by left.
  - repeat case_match; intros; simplify_eq. simpl. repeat split.
    + unfold node_at in *. destruct (resolve p); [done | by rewrite lookup_insert_eq].
    + by right.
Qed.

Lemma init_run dir w :
  init dir w
  = match mkdir_exist_ok (Path_of dir) w with
    | (Ok _, w1) => (Ok {| output_dir := Path_of dir |}, w1)
    | (Raise e, w1) => (Raise e, w1)
    end.
Proof. reflexivity. Qed.

Lemma init_ok dir gen w w1 :
  init dir w = (Ok gen, w1) →
  gen = {| output_dir := Path_of dir |} ∧ mkdir_exist_ok (Path_of dir) w = (Ok tt, w1).
Proof.
  rewrite init_run. destruct (mkdir_exist_ok (Path_of dir) w) as [[[]|e] w1']; [|done].
  by intros [= <- <-].
Qed.

Lemma init_raise dir e w w1 :
  init dir w = (Raise e, w1) → mkdir_exist_ok (Path_of dir) w = (Raise e, w1).
Proof.
  rewrite init_run. destruct (mkdir_exist_ok (Path_of dir) w) as [[[]|e'] w1']; [done|].
  by intros [= <- <-].
Qed.

Lemma chosen_dir (argv : list string) :
  (if bool_decide (1 < length argv) then nth 1 argv "" else "test_files")
  = output_dir_arg argv.
Proof.
  unfold output_dir_arg. case_bool_decide as H.
  - destruct argv as [|a [|b r]]; simpl in H; [lia | lia | done].
  - destruct argv as [|a [|b r]]; simpl in H; [done | done | lia].
Qed.

Lemma main_init_raise argv e w w1 :
  init (output_dir_arg argv) w = (Raise e, w1) → main argv w = (Raise e, w1).
Proof. intros H. unfold main. rewrite chosen_dir. unfold bind. by rewrite H. Qed.

Lemma main_true argv gen w w1 w2 :
  init (output_dir_arg argv) w = (Ok gen, w1) →
  generate_all gen w1 = (Ok true, w2) →
  ∃ w', main argv w = (Ok tt, w')
    ∧ fs w' = fs w2 ∧ trace w' = trace w2
    ∧ ∃ l, stdout w' = stdout w2 ++ l.
Proof.
  intros Hi Hg. unfold main. rewrite chosen_dir. unfold bind. rewrite Hi, Hg.
  unfold print. eexists. split; [done|]. cbn [fs trace stdout]. repeat split.
  eexists. by rewrite <- app_assoc.
Qed.

Lemma main_false argv gen w w1 w2 :
  init (output_dir_arg argv) w = (Ok gen, w1) →
  generate_all gen w1 = (Ok false, w2) →
  ∃ w', main argv w = (Raise (SystemExit 1), w')
    ∧ fs w' = fs w2 ∧ trace w' = trace w2
    ∧ stdout w' = stdout w2 ++ [nl +:+ "Failed to generate test files."].
Proof.
  intros Hi Hg. unfold main. rewrite chosen_dir. unfold bind. rewrite Hi, Hg.
  unfold print, sys_exit, raise. by eexists.
Qed.

(** [generate_all] returns, whatever happens to the files. *)
Lemma generate_all_returns self w :
  ∃ b w', generate_all self w = (Ok b, w').
Proof.
  destruct (run_puts self catalog w) as [[[]|e] w0] eqn:Hrun.
  - destruct (generate_all_true _ _ _ Hrun) as (w' & H & _). by exists true, w'.
  - destruct (generate_all_false _ _ _ _ Hrun) as (w' & H & _). by exists false, w'.
Qed.

(** *** Runs that succeed *)

Lemma catalog_names : catalog.*1 = fixed_filenames.
Proof. reflexivity. Qed.

Lemma targets_catalog self : targets self catalog = fixed_paths (out_dir self).
Proof. rewrite (targets_simple _ _ catalog_simple). by rewrite catalog_names. Qed.

Lemma targets_catalog_NoDup self : NoDup (targets self catalog).
Proof. apply targets_NoDup; [apply catalog_simple | apply catalog_NoDup]. Qed.

Lemma no_write_raises_quiet d n :
  no_write_raises d = true → n ∈ fixed_filenames →
  fault OpOpen (d ++ [n]) = None ∧ fault OpWrite (d ++ [n]) = None.
Proof.
  unfold no_write_raises, fixed_paths, quiet. intros H Hn.
  rewrite forallb_forall in H.
  specialize (H (d ++ [n])). rewrite <- list_elem_of_In in H.
  assert (d ++ [n] ∈ (fun n => d ++ [n]) <$> fixed_filenames) as Hin.
  { apply list_elem_of_fmap. by exists n. }
  apply H in Hin. apply andb_prop in Hin as [Ho Hw].
  by destruct (fault OpOpen (d ++ [n])), (fault OpWrite (d ++ [n])).
Qed.

Lemma run_puts_catalog_succeeds self w :
  node_at (fs w) (out_dir self) = Some Dir →
  (∀ n, n ∈ fixed_filenames → fs w !! (out_dir self ++ [n]) ≠ Some Dir) →
  no_write_raises (out_dir self) = true →
  ∃ w0, run_puts self catalog w = (Ok tt, w0).
Proof.
  intros Hd Hk Hq. apply run_puts_succeeds; [apply catalog_simple | done |].
  rewrite catalog_names. intros n Hn. split; [by apply Hk|].
  by apply no_write_raises_quiet.
Qed.

Lemma parent_ne (d : list string) : d ≠ [] → parent d ≠ d.
Proof.
  destruct d as [|x d _] using rev_ind; [done|]. intros _.
  rewrite parent_snoc. intros H. symmetry in H. by apply snoc_ne in H.
Qed.

Lemma entries_insert_self m d v :
  node_at m d = None → entries (<[d := v]> m) d ≡ₚ entries m d.
Proof.
  intros Hd. assert (d ≠ []) as Hne by (intros ->; done).
  assert (m !! d = None) as Hm by (unfold node_at in Hd; by destruct d).
  rewrite (entries_insert_new _ _ _ _ Hm). rewrite decide_False; [done|].
  intros [_ Hp]. by apply parent_ne in Hp.
Qed.

Lemma mkdir_fresh p w :
  fresh_dir (fs w) (resolve p) = true →
  quiet OpMkdir (resolve p) = true →
  ∃ w1, mkdir_exist_ok p w = (Ok tt, w1)
    ∧ node_at (fs w1) (resolve p) = Some Dir
    ∧ entries (fs w1) (resolve p) = [].
Proof.
  unfold fresh_dir, quiet. intros [He Hk]%andb_prop Hq.
  apply bool_decide_eq_true in He.
  destruct (mkdir_exist_ok p w) as [[[]|e] w1] eqn:Hmk.
  - exists w1. split; [done|].
    apply mkdir_ok in Hmk as (_ & _ & Hd & [[Hf _]|(Hn & Hf & _)]); split; try done.
    + by rewrite Hf.
    + apply Permutation_nil_r. by rewrite Hf, (entries_insert_self _ _ _ Hn), He.
  - exfalso. revert Hmk. unfold mkdir_exist_ok.
    destruct (node_at (fs w) (resolve p)) as [[]|]; [done|done|].
    apply bool_decide_eq_true in Hk. rewrite Hk.
    by destruct (fault OpMkdir (resolve p)).
Qed.

Lemma entries_elem m (d : list string) n x :
  m !! (d ++ [n]) = Some x → d ++ [n] ∈ entries m d.
Proof.
  intros Hx. unfold entries. apply list_elem_of_filter. split; [apply is_entry_snoc|].
  apply list_elem_of_fmap. exists (d ++ [n], x). split; [done|].
  by apply elem_of_map_to_list.
Qed.

Lemma only_other_names_None m d n :
  only_other_names m d = true → n ∈ fixed_filenames → m !! (d ++ [n]) = None.
Proof.
  unfold only_other_names. intros H Hn.
  destruct (m !! (d ++ [n])) as [x|] eqn:Hx; [|done].
  apply entries_elem in Hx. rewrite forallb_forall in H.
  apply list_elem_of_In, H, bool_decide_eq_true in Hx. destruct Hx.
  apply list_elem_of_fmap. by exists n.
Qed.

Lemma generate_all_sim self w :
  sim (generate_all self w).2 (run_puts self catalog w).2.
Proof.
  destruct (run_puts self catalog w) as [[[]|e] w0] eqn:Hrun.
  - destruct (generate_all_true _ _ _ Hrun) as (w' & -> & H & _). done.
  - destruct (generate_all_false _ _ _ _ Hrun) as (w' & -> & H & _). done.
Qed.

Lemma generate_all_true_inv self w :
  (generate_all self w).1 = Ok true →
  ∃ w0, run_puts self catalog w = (Ok tt, w0).
Proof.
  destruct (run_puts self catalog w) as [[[]|e] w0] eqn:Hrun; [by eexists|].
  destruct (generate_all_false _ _ _ _ Hrun) as (w' & -> & _). done.
Qed.

(** What a successful run logs about the directory. *)
Lemma generate_all_true_count self w :
  (generate_all self w).1 = Ok true →
  ∃ t, stamped t ("Generated "
                  +:+ str_nat (length (entries (fs (generate_all self w).2) (out_dir self)))
                  +:+ " files in " +:+ path_str self.(output_dir))
       ∈ stdout (generate_all self w).2.
Proof.
  intros [w0 Hrun]%generate_all_true_inv.
  by destruct (generate_all_true _ _ _ Hrun) as (w' & -> & _ & Hline).
Qed.

(** What a successful run leaves in the tree. *)
Lemma generate_all_true_fs self w :
  (generate_all self w).1 = Ok true →
  fs (generate_all self w).2 = write_all self catalog (fs w)
  ∧ trace (generate_all self w).2 = trace w ++ (wrote self <$> catalog).
Proof.
  intros [w0 Hrun]%generate_all_true_inv.
  destruct (generate_all_sim self w) as [Hf Ht]. rewrite Hrun in Hf, Ht.
  apply run_puts_ok in Hrun as (Hf0 & Ht0 & _). simpl in Hf, Ht.
  by rewrite Hf, Ht.
Qed.

Lemma run_puts_frame self ps w k :
  k ∉ targets self ps → fs (run_puts self ps w).2 !! k = fs w !! k.
Proof.
  intros Hk. destruct (run_puts self ps w) as [[[]|e] w0] eqn:Hrun.
  - apply run_puts_ok in Hrun as (Hf & _). simpl. rewrite Hf. by apply write_all_frame.
  - apply run_puts_raise in Hrun as (_ & pre & nc & post & -> & _ & Hf & _).
    unfold targets in Hk. rewrite fmap_app, fmap_cons in Hk.
    apply not_elem_of_app in Hk as [Hpre [Hnc _]%not_elem_of_cons].
    simpl. rewrite (Hf _ Hnc). by apply write_all_frame.
Qed.

Lemma run_puts_keeps self ps w k :
  is_Some (fs w !! k) → is_Some (fs (run_puts self ps w).2 !! k).
Proof.
  intros Hk. destruct (run_puts self ps w) as [[[]|e] w0] eqn:Hrun.
  - apply run_puts_ok in Hrun as (Hf & _). simpl. rewrite Hf. by apply write_all_keeps.
  - apply run_puts_raise in Hrun as (_ & pre & nc & post & _ & _ & Hf & Hk' & _).
    simpl. destruct (decide (k = target self nc.1)) as [->|Hne].
    + by apply Hk', write_all_keeps.
    + rewrite (Hf _ Hne). by apply write_all_keeps.
Qed.

(** *** The history of a run *)

Lemma events_since_app w w' evs :
  trace w' = trace w ++ evs → events_since w w' = evs.
Proof. unfold events_since. intros ->. by rewrite drop_app_length. Qed.

Lemma failed_write_wrote self ps evs :
  failed_write ((wrote self <$> ps) ++ evs) = failed_write evs.
Proof. induction ps as [|nc ps IH]; [done|]. by cbn. Qed.

Lemma written_wrote self ps evs :
  written ((wrote self <$> ps) ++ evs)
  = ((fun nc => (target self nc.1, nc.2)) <$> ps) ++ written evs.
Proof. induction ps as [|nc ps IH]; [done|]. cbn. by rewrite IH. Qed.

(** The history of the constructor: a directory made, or nothing. *)
Lemma init_history dir gen w w1 :
  init dir w = (Ok gen, w1) →
  stdout w1 = stdout w
  ∧ ∃ pfx, trace w1 = trace w ++ pfx ∧ failed_write pfx = None ∧ written pfx = []
      ∧ ∀ evs, failed_write (pfx ++ evs) = failed_write evs
               ∧ written (pfx ++ evs) = written evs.
Proof.
  intros [_ Hmk]%init_ok.
  apply mkdir_ok in Hmk as (Hs & _ & _ & [[_ Ht]|(_ & _ & Ht)]); (split; [done|]).
  - exists []. by rewrite app_nil_r.
  - by eexists [_].
Qed.

(** What a successful run leaves in each file of the catalog. *)
Lemma generate_all_catalog_contents self w :
  (generate_all self w).1 = Ok true →
  Forall (fun nc => fs (generate_all self w).2 !! (out_dir self ++ [nc.1])
                    = Some (File nc.2)) catalog.
Proof.
  intros [Hf _]%generate_all_true_fs. rewrite Hf.
  apply Forall_forall. intros nc Hnc.
  rewrite <- (target_simple self nc.1).
  - by apply write_all_content; [apply targets_catalog_NoDup|].
  - apply (proj1 (Forall_forall _ _) catalog_simple). apply list_elem_of_fmap. by exists nc.
Qed.

Lemma settings_round_trip : loads (dumps settings 4) = Some settings.
Proof. by vm_compute. Qed.

(** ** The claims *)

(** C1.  Run against a fresh, writable output directory in which no write
    raises, the script ends with exit status 0, each of the nineteen file
    names of section 6 is then a file of the directory, and the directory
    has exactly nineteen entries. *)
Theorem generate_all_fresh_directory argv w :
  let d := resolve (Path_of (output_dir_arg argv)) in
  fresh_dir (fs w) d = true →
  quiet OpMkdir d = true →
  no_write_raises d = true →
  let r := main argv w in
  exit_status r.1 = 0%Z
  ∧ Forall (fun k => ∃ c, fs r.2 !! k = Some (File c)) (fixed_paths d)
  ∧ length (entries (fs r.2) d) = 19.
Proof.
  intros d Hfresh Hmk Hq r. subst d r.
  destruct (mkdir_fresh _ _ Hfresh Hmk) as (w1 & Hmkdir & Hd & He).
  set (gen := {| output_dir := Path_of (output_dir_arg argv) |}).
  change (resolve (Path_of (output_dir_arg argv))) with (out_dir gen) in *.
  assert (init (output_dir_arg argv) w = (Ok gen, w1)) as Hinit
    by (by rewrite init_run, Hmkdir).
  destruct (run_puts_catalog_succeeds gen w1) as [w0 Hrun]; [done| |done|].
  { intros n _. by rewrite (entries_None _ _ n He). }
  destruct (generate_all_true _ _ _ Hrun) as (w2 & Hgen & [Hf2 _] & _).
  destruct (main_true _ _ _ _ _ Hinit Hgen) as (w' & Hmain & Hf' & _).
  apply run_puts_ok in Hrun as (Hf0 & _).
  rewrite Hmain. cbn [fst snd]. rewrite Hf', Hf2, Hf0.
  split; [done|]. split.
  - rewrite <- (targets_catalog gen). apply Forall_forall. intros k Hk.
    unfold targets in Hk. apply list_elem_of_fmap in Hk as (nc & -> & Hnc).
    eexists. apply write_all_content; [apply targets_catalog_NoDup | done].
  - rewrite entries_write_all.
    + by rewrite He.
    + apply catalog_simple.
    + apply catalog_NoDup.
    + intros n _. by apply entries_None.
Qed.

(** C10.  The count [generate_all] logs is the number of entries the
    output directory has when the run ends, entries the run did not write
    included: with [k] entries under other names there before, the run
    succeeds and reports 19 + k. *)
Theorem file_count_includes_existing_entries self w :
  let d := out_dir self in
  let r := generate_all self w in
  (r.1 = Ok true →
   ∃ t, stamped t ("Generated "
                   +:+ str_nat (length (entries (fs r.2) d))
                   +:+ " files in " +:+ path_str self.(output_dir))
        ∈ stdout r.2)
  ∧ (node_at (fs w) d = Some Dir →
     only_other_names (fs w) d = true →
     no_write_raises d = true →
     r.1 = Ok true
     ∧ length (entries (fs r.2) d) = 19 + length (entries (fs w) d)).
Proof.
  intros d r. subst d r. split; [apply generate_all_true_count|].
  intros Hd Hother Hq.
  destruct (run_puts_catalog_succeeds self w) as [w0 Hrun]; [done| |done|].
  { intros n Hn. by rewrite (only_other_names_None _ _ _ Hother Hn). }
  destruct (generate_all_true _ _ _ Hrun) as (w' & Hgen & [Hf _] & _).
  rewrite Hgen. cbn [fst snd]. split; [done|].
  apply run_puts_ok in Hrun as (Hf0 & _). rewrite Hf, Hf0.
  rewrite entries_write_all; [done | apply catalog_simple | apply catalog_NoDup |].
  rewrite catalog_names. intros n Hn. by apply only_other_names_None.
Qed.

(** C9.  [generate_all] touches the nineteen files only: whatever else
    there is, in the output directory or elsewhere, is after the run what
    it was before, and nothing that was there is gone. *)
Theorem generate_all_frame self w k :
  let w' := (generate_all self w).2 in
  (k ∉ fixed_paths (out_dir self) → fs w' !! k = fs w !! k)
  ∧ (is_Some (fs w !! k) → is_Some (fs w' !! k)).
Proof.
  intros w'. subst w'. destruct (generate_all_sim self w) as [-> _]. split.
  - rewrite <- targets_catalog. apply run_puts_frame.
  - apply run_puts_keeps.
Qed.

(** C4.  After a successful run every fixture file holds the text of its
    literal, character for character; [basic.py] holds the five lines the
    specification quotes. *)
Theorem fixture_contents self w :
  (generate_all self w).1 = Ok true →
  let m := fs (generate_all self w).2 in
  Forall (fun nc => m !! (out_dir self ++ [nc.1]) = Some (File nc.2)) catalog
  ∧ m !! (out_dir self ++ ["basic.py"])
    = Some (File ("def hello():" +:+ nl
                  +:+ "    print('Hello, World!')" +:+ nl
                  +:+ nl
                  +:+ "if __name__ == '__main__':" +:+ nl
                  +:+ "    hello()" +:+ nl)).
Proof.
  intros Hall%generate_all_catalog_contents m. subst m. split; [done|].
  apply (proj1 (Forall_forall _ _) Hall ("basic.py", Literal.basic_py)).
  unfold catalog. do 8 right. left.
Qed.

(** C6.  When a write fails during [generate_all], the error line with the
    message of the exception is in the log, the process ends with exit
    status 1, and nothing is rolled back: each file written before the
    failure is there with the text written to it. *)
Theorem write_failure_is_reported argv w k e :
  let r := main argv w in
  failed_write (events_since w r.2) = Some (k, e) →
  (∃ t, stamped t ("ERROR: Failed to generate test files: " +:+ exn_str e)
        ∈ stdout r.2)
  ∧ exit_status r.1 = 1%Z
  ∧ Forall (fun kc => fs r.2 !! kc.1 = Some (File kc.2))
      (written (events_since w r.2)).
Proof.
  intros r. subst r.
  destruct (init (output_dir_arg argv) w) as [[gen|e0] w1] eqn:Hinit.
  2: { rewrite (main_init_raise _ _ _ _ Hinit). cbn [fst snd].
       apply init_raise, mkdir_raise in Hinit as [-> _].
       by rewrite (events_since_app w w []) by (by rewrite app_nil_r). }
  destruct (init_history _ _ _ _ Hinit) as (_ & pfx & Ht1 & _ & _ & Hpfx).
  destruct (run_puts gen catalog w1) as [[[]|e1] w0] eqn:Hrun.
  - destruct (generate_all_true _ _ _ Hrun) as (w2 & Hgen & [_ Ht2] & _).
    destruct (main_true _ _ _ _ _ Hinit Hgen) as (w' & -> & _ & Ht' & _).
    apply run_puts_ok in Hrun as (_ & Ht0 & _). cbn [fst snd].
    rewrite (events_since_app w w' (pfx ++ (wrote gen <$> catalog)))
      by (by rewrite Ht', Ht2, Ht0, Ht1, app_assoc).
    rewrite (proj1 (Hpfx _)).
    rewrite <- (app_nil_r (wrote gen <$> catalog)), failed_write_wrote. done.
  - destruct (generate_all_false _ _ _ _ Hrun) as (w2 & Hgen & [Hf2 Ht2] & t & Hlast).
    destruct (main_false _ _ _ _ _ Hinit Hgen) as (w' & -> & Hf' & Ht' & Hs').
    apply run_puts_raise in Hrun as (_ & pre & nc & post & Hcat & Ht0 & Hf0 & _).
    cbn [fst snd].
    rewrite (events_since_app w w'
               (pfx ++ (wrote gen <$> pre) ++ [WriteFailed (target gen nc.1) e1]))
      by (by rewrite Ht', Ht2, Ht0, Ht1, !app_assoc).
    rewrite (proj1 (Hpfx _)), (proj2 (Hpfx _)), failed_write_wrote, written_wrote.
    cbn [failed_write written]. intros [= <- <-]. split; [|split; [done|]].
    + exists t. rewrite Hs'. apply elem_of_app. left.
      apply last_Some in Hlast as [l ->]. apply elem_of_app. right. by left.
    + rewrite app_nil_r. apply Forall_forall. intros kc Hkc.
      apply list_elem_of_fmap in Hkc as (nc' & -> & Hnc'). cbn [fst snd].
      pose proof (targets_catalog_NoDup gen) as Hnd.
      rewrite Hcat in Hnd. unfold targets in Hnd. rewrite fmap_app, fmap_cons in Hnd.
      apply NoDup_app in Hnd as (Hpre & Hdisj & _).
      assert (target gen nc'.1 ∈ (fun nc => target gen nc.1) <$> pre) as Hin.
      { apply list_elem_of_fmap. by exists nc'. }
      rewrite Hf', Hf2, Hf0.
      * by apply write_all_content.
      * intros Heq. apply (Hdisj _ Hin). rewrite Heq. by left.
Qed.

(** C2, as amended.  After a successful run [test_settings.json] reads
    back as a mapping whose keys are exactly the seven names of the
    specification each prefixed with [copyright-notice.], and the values
    under [copyright-notice.includeTimestamp] and
    [copyright-notice.includeUpdateTime] are both [true]. *)
Theorem settings_document self w :
  (generate_all self w).1 = Ok true →
  ∃ text v ks,
    fs (generate_all self w).2 !! (out_dir self ++ ["test_settings.json"])
    = Some (File text)
    ∧ loads text = Some v ∧ keys v = Some ks
    ∧ (∀ k, k ∈ ks ↔ k ∈ settings_keys)
    ∧ get "copyright-notice.includeTimestamp" v = Some (JBool true)
    ∧ get "copyright-notice.includeUpdateTime" v = Some (JBool true).
Proof.
  intros Hall%generate_all_catalog_contents.
  exists (dumps settings 4), settings, settings_keys. split.
  - apply (proj1 (Forall_forall _ _) Hall ("test_settings.json", dumps settings 4)).
    unfold catalog. do 17 right. left.
  - split; [apply settings_round_trip|]. by repeat split.
Qed.


(** C7, as amended.  A failure to create the output directory is caught
    nowhere: the exception leaves [main], which ends the process with
    exit status 1, and the world is as it was, with nothing logged and no
    file written. *)
Theorem directory_creation_failure_propagates argv w e w1 :
  mkdir_exist_ok (Path_of (output_dir_arg argv)) w = (Raise e, w1) →
  main argv w = (Raise e, w)
  ∧ is_Exception e = true
  ∧ exit_status (Raise e) = 1%Z.
Proof.
  intros Hmk. destruct (mkdir_raise _ _ _ _ Hmk) as (-> & cls & msg & ->).
  split; [|done]. apply main_init_raise. by rewrite init_run, Hmk.
Qed.


(** ** More about the script *)

(** *** What is printed *)

Lemma appends_bind {A B} (m : M A) (f : A → M B) :
  appends m → (∀ a, appends (f a)) → appends (bind m f).
Proof.
  intros Hm Hf w. destruct (Hm w) as (l1 & H1 & F1). unfold bind.
  destruct (m w) as [[a|e] w1]; simpl in H1.
  - destruct (Hf a w1) as (l2 & H2 & F2). exists (l1 ++ l2).
    rewrite H2, H1, app_assoc. split; [done | by apply Forall_app].
  - by exists l1.
Qed.

Lemma appends_silent {A} (m : M A) :
  (∀ w, stdout (m w).2 = stdout w) → appends m.
Proof. intros H w. exists []. by rewrite H, app_nil_r. Qed.

Lemma appends_open_w p : appends (open_w p).
Proof. apply appends_silent. intros w. unfold open_w, failed. by repeat case_match. Qed.

Lemma appends_f_write p c : appends (f_write p c).
Proof. apply appends_silent. intros w. unfold f_write, failed. by case_match. Qed.

Lemma appends_log message : appends (log message).
Proof.
  intros w. eexists [_]. split; [reflexivity|].
  apply Forall_singleton. right. by do 2 eexists.
Qed.

Lemma appends_blank : appends (print "").
Proof. intros w. exists [""]. split; [done|]. apply Forall_singleton. by left. Qed.

Lemma appends_try_except {A} (body : M A) handler :
  appends body → (∀ e, appends (handler e)) → appends (try_except body handler).
Proof.
  intros Hb Hh w. destruct (Hb w) as (l1 & H1 & F1). unfold try_except.
  destruct (body w) as [[a|e] w1]; simpl in H1; [by exists l1|].
  destruct (is_Exception e); [|by exists l1].
  destruct (Hh e w1) as (l2 & H2 & F2). exists (l1 ++ l2).
  rewrite H2, H1, app_assoc. split; [done | by apply Forall_app].
Qed.

Ltac appends_step :=
  lazymatch goal with
  | |- appends (bind _ _) => apply appends_bind; [ | intros ? ]
  | |- appends (try_except _ _) => apply appends_try_except; [ | intros ? ]
  | |- appends (log _) => apply appends_log
  | |- appends (print "") => apply appends_blank
  | |- appends (open_w _) => apply appends_open_w
  | |- appends (f_write _ _) => apply appends_f_write
  | |- appends (ret _) => apply appends_silent; by intros ?
  | |- appends (glob_count _) => apply appends_silent; by intros ?
  end.

Lemma appends_after_log {A} message (k : M A) :
  appends k →
  ∀ w, ∃ l, stdout ((log message ;;; k) w).2
            = stdout w ++ stamped (clock w) message :: l
          ∧ Forall line_ok l.
Proof.
  intros Hk w.
  destruct (Hk {| fs := fs w; stdout := stdout w ++ [stamped (clock w) message];
                  clock := S (clock w); trace := trace w |}) as (l & Hl & Fl).
  exists l. split; [|done]. cbn [stdout] in Hl. rewrite <- app_assoc in Hl. exact Hl.
Qed.

Lemma appends_generate_all self : appends (generate_all self).
Proof.
  unfold generate_all, generate_all_body, generate_js_files, generate_ts_files,
    generate_ahk_files, generate_py_files, generate_cpp_files,
    generate_json_files, generate_mixed_files, generate_vscode_settings,
    generate_readme, create_file.
  cbv zeta. repeat appends_step.
Qed.

(** X1.  [generate_all] only adds to the output; the first line it adds
    is the stamped start line, and every line after it is blank or
    stamped. *)
Theorem generate_all_log_format self w :
  ∃ l, stdout (generate_all self w).2
       = stdout w ++ stamped (clock w) "=== Starting Test File Generation ===" :: l
     ∧ Forall line_ok l.
Proof.
  unfold generate_all. apply appends_after_log.
  unfold generate_all_body, generate_js_files, generate_ts_files,
    generate_ahk_files, generate_py_files, generate_cpp_files,
    generate_json_files, generate_mixed_files, generate_vscode_settings,
    generate_readme, create_file.
  cbv zeta. repeat appends_step.
Qed.

(** *** [create_file] *)

Lemma create_file_put self n c description w :
  outcome (create_file self n c description w).1 = outcome (put self n c w).1
  ∧ fs (create_file self n c description w).2 = fs (put self n c w).2
  ∧ trace (create_file self n c description w).2 = trace (put self n c w).2
  ∧ (outcome (put self n c w).1 ≠ None →
     stdout (create_file self n c description w).2 = stdout (put self n c w).2
     ∧ clock (create_file self n c description w).2 = clock (put self n c w).2).
Proof.
  unfold create_file, put, bind. cbv zeta.
  destruct (open_w _ w) as [[[]|e] w1]; [|done].
  destruct (f_write _ c w1) as [[[]|e] w2]; done.
Qed.

(** X2.  When [create_file] returns, it returns the path of the file in
    the output directory; the file holds the content given, whatever it
    held before; one line is added to the log, naming the file, the
    length of the content in characters and the description; and no other
    path has changed. *)
Theorem create_file_success self n c description w p w' :
  create_file self n c description w = (Ok p, w') →
  p = truediv self.(output_dir) n
  ∧ fs w' = <[resolve p := File c]> (fs w)
  ∧ stdout w'
    = stdout w ++ [stamped (clock w)
                     ("✓ Created " +:+ n +:+ " (" +:+ str_nat (py_len c)
                      +:+ " chars) - " +:+ description)]
  ∧ clock w' = S (clock w).
Proof.
  unfold create_file. cbv zeta. intros H.
  apply bind_ok_inv in H as ([] & w1 & Ho & H).
  apply bind_ok_inv in H as ([] & w2 & Hw & H).
  assert (put self n c w = (Ok tt, w2)) as Hput
    by (unfold put, bind; by rewrite Ho, Hw).
  apply put_ok in Hput as (Hf & _ & Hs & Hc).
  cbv [bind log strftime_now print ret] in H. injection H as <- <-.
  cbn [fs stdout clock]. by rewrite Hf, Hs, Hc.
Qed.

(** X3.  When [create_file] raises, the exception is one [except
    Exception] catches, nothing is logged, the failure is the one event of
    the call, and no path but that of the file has changed. *)
Theorem create_file_failure self n c description e w w' :
  create_file self n c description w = (Raise e, w') →
  is_Exception e = true
  ∧ stdout w' = stdout w
  ∧ events_since w w' = [WriteFailed (target self n) e]
  ∧ ∀ k, k ≠ target self n → fs w' !! k = fs w !! k.
Proof.
  intros H. destruct (create_file_put self n c description w) as (Ho & Hf & Ht & Hs).
  rewrite H in Ho, Hf, Ht, Hs. cbn [fst snd outcome] in *.
  destruct (put self n c w) as [[[]|e'] w0] eqn:Hput; [done|].
  cbn [fst snd outcome] in *. injection Ho as <-.
  destruct Hs as [Hs _]; [done|].
  apply put_raise in Hput as (He & Ht0 & Hf0 & _ & Hs0 & _).
  split; [done|]. split; [by rewrite Hs|].
  split; [apply events_since_app; by rewrite Ht | by rewrite Hf].
Qed.

Lemma put_no_directory self n c w :
  simple n →
  node_at (fs w) (out_dir self) ≠ Some Dir ∨ fs w !! (out_dir self ++ [n]) = Some Dir →
  ∃ e w', put self n c w = (Raise e, w') ∧ fs w' = fs w.
Proof.
  intros Hn H. unfold put, bind, open_w, failed.
  fold (target self n). rewrite (target_simple _ _ Hn), node_at_snoc, parent_snoc.
  destruct H as [Hd | ->]; [|by do 2 eexists].
  destruct (node_at (fs w) (out_dir self)) as [[]|]; [done| |];
    destruct (fs w !! (out_dir self ++ [n])) as [[]|]; by do 2 eexists.
Qed.

(** X4.  [create_file] makes no directory and replaces none: with the
    output directory missing (or a regular file), or with a directory
    under the name of the file, it raises and leaves the tree and the log
    as they were. *)
Theorem create_file_needs_directory self n c description w :
  simple n →
  node_at (fs w) (out_dir self) ≠ Some Dir ∨ fs w !! (out_dir self ++ [n]) = Some Dir →
  ∃ e w', create_file self n c description w = (Raise e, w')
    ∧ fs w' = fs w ∧ stdout w' = stdout w.
Proof.
  intros Hn H. destruct (put_no_directory self n c w Hn H) as (e & w0 & Hput & Hfs).
  destruct (create_file_put self n c description w) as (Ho & Hf & _ & Hs).
  rewrite Hput in Ho, Hf, Hs. cbn [fst snd outcome] in *.
  destruct Hs as [Hs _]; [done|].
  apply put_raise in Hput as (_ & _ & _ & _ & Hs0 & _).
  destruct (create_file self n c description w) as [[q|e'] w'] eqn:Hcf; [done|].
  cbn [fst snd outcome] in *. injection Ho as ->.
  exists e, w'. split; [done|]. split; [by rewrite Hf | by rewrite Hs].
Qed.

(** *** The methods that write files *)

Lemma refines_ok {A} self (m : M A) ps w a w' :
  refines self m ps → m w = (Ok a, w') →
  fs w' = write_all self ps (fs w) ∧ trace w' = trace w ++ (wrote self <$> ps).
Proof.
  intros Hr Hm. destruct (Hr w w (sim_refl w)) as [Ho [Hf Ht]].
  rewrite Hm in Ho, Hf, Ht. cbn [fst snd outcome] in *.
  destruct (run_puts self ps w) as [[[]|e] w0] eqn:Hrun; [|done].
  apply run_puts_ok in Hrun as (Hf0 & Ht0 & _). cbn [snd] in *.
  by rewrite Hf, Ht.
Qed.

Lemma refines_frame {A} self (m : M A) ps w k :
  refines self m ps → k ∉ targets self ps → fs (m w).2 !! k = fs w !! k.
Proof.
  intros Hr Hk. destruct (Hr w w (sim_refl w)) as [_ [Hf _]].
  rewrite Hf. by apply run_puts_frame.
Qed.

Lemma writers_refine self :
  Forall (fun gl => refines self (gl.1 self) gl.2) writers.
Proof.
  unfold writers.
  repeat (apply Forall_cons; split;
          [cbn [fst snd];
           unfold generate_js_files, generate_ts_files, generate_ahk_files,
             generate_py_files, generate_cpp_files, generate_json_files,
             generate_mixed_files, generate_vscode_settings, generate_readme;
           cbv zeta; eapply refines_eq; [repeat refines_step | reflexivity] |]).
  apply Forall_nil_2.
Qed.

(** X5.  Each of the nine methods that write files touches the files of
    its own category only, and when it returns it has written each of
    them once, in order; the categories, in the order [generate_all] calls
    the methods, make up the catalog. *)
Theorem writers_write_their_files self w :
  Forall (fun gl =>
            (∀ k, k ∉ targets self gl.2 → fs (gl.1 self w).2 !! k = fs w !! k)
            ∧ (∀ w', gl.1 self w = (Ok tt, w') →
                 fs w' = write_all self gl.2 (fs w)
                 ∧ events_since w w' = (wrote self <$> gl.2)))
    writers
  ∧ concat writers.*2 = catalog.
Proof.
  split; [|reflexivity].
  eapply Forall_impl; [apply writers_refine|].
  intros [g l] Hr. cbn [fst snd] in *. split.
  - intros k Hk. by eapply refines_frame.
  - intros w' Hg. destruct (refines_ok _ _ _ _ _ _ Hr Hg) as [Hf Ht].
    split; [done | by apply events_since_app].
Qed.

(** *** Runs that fail *)

Lemma generate_all_false_inv self w :
  (generate_all self w).1 = Ok false →
  ∃ e w0, run_puts self catalog w = (Raise e, w0).
Proof.
  destruct (run_puts self catalog w) as [[[]|e] w0] eqn:Hrun; [|by do 2 eexists].
  destruct (generate_all_true _ _ _ Hrun) as (w' & -> & _). done.
Qed.

Lemma targets_app self ps1 ps2 :
  targets self (ps1 ++ ps2) = targets self ps1 ++ targets self ps2.
Proof. unfold targets. apply fmap_app. Qed.

(** X6.  [generate_all] stops at the first write that fails: that failure
    is the last event of the run, the files before it in the catalog were
    written, and the files after it are as they were before the run. *)
Theorem generate_all_stops_at_first_failure self w :
  (generate_all self w).1 = Ok false →
  ∃ pre nc post e,
    catalog = pre ++ nc :: post
    ∧ events_since w (generate_all self w).2
      = (wrote self <$> pre) ++ [WriteFailed (target self nc.1) e]
    ∧ ∀ k, k ∈ targets self post → fs (generate_all self w).2 !! k = fs w !! k.
Proof.
  intros (e & w0 & Hrun)%generate_all_false_inv.
  destruct (generate_all_sim self w) as [Hf Ht]. rewrite Hrun in Hf, Ht.
  cbn [snd] in Hf, Ht.
  apply run_puts_raise in Hrun as (_ & pre & nc & post & Hcat & Ht0 & Hf0 & _).
  exists pre, nc, post, e. split; [done|].
  split; [apply events_since_app; by rewrite Ht|].
  intros k Hk. pose proof (targets_catalog_NoDup self) as Hnd.
  rewrite Hcat, targets_app in Hnd. apply NoDup_app in Hnd as (_ & Hdisj & Hnd).
  cbn [targets fmap list_fmap] in Hnd. apply NoDup_cons in Hnd as [Hnc _].
  rewrite Hf, Hf0.
  - apply write_all_frame. intros Hin. apply (Hdisj _ Hin). by right.
  - intros ->. done.
Qed.

(** X7.  [generate_all] lets no exception out: it returns a boolean, and
    the boolean is [True] exactly when no write of the run failed. *)
Theorem generate_all_result self w :
  ∃ b, (generate_all self w).1 = Ok b
    ∧ (b = true ↔ failed_write (events_since w (generate_all self w).2) = None).
Proof.
  destruct (generate_all_sim self w) as [_ Ht].
  destruct (run_puts self catalog w) as [[[]|e] w0] eqn:Hrun.
  - destruct (generate_all_true _ _ _ Hrun) as (w' & Hg & _).
    rewrite Hg in Ht |- *. cbn [fst snd] in *. exists true. split; [done|].
    apply run_puts_ok in Hrun as (_ & Ht0 & _).
    rewrite (events_since_app w w' (wrote self <$> catalog)) by (by rewrite Ht).
    by rewrite <- (app_nil_r (wrote self <$> catalog)), failed_write_wrote.
  - destruct (generate_all_false _ _ _ _ Hrun) as (w' & Hg & _).
    rewrite Hg in Ht |- *. cbn [fst snd] in *. exists false. split; [done|].
    apply run_puts_raise in Hrun as (_ & pre & nc & post & _ & Ht0 & _).
    rewrite (events_since_app w w' ((wrote self <$> pre) ++ [WriteFailed (target self nc.1) e]))
      by (by rewrite Ht).
    by rewrite failed_write_wrote.
Qed.

(** X8.  [generate_all] makes no directory: with the output directory
    missing, or a regular file, it returns [False] and the tree is as it
    was. *)
Theorem generate_all_needs_directory self w :
  node_at (fs w) (out_dir self) ≠ Some Dir →
  (generate_all self w).1 = Ok false ∧ fs (generate_all self w).2 = fs w.
Proof.
  intros Hd.
  destruct (put_no_directory self "basic.js" Literal.basic_js w) as (e & w0 & Hput & Hfs);
    [done | by left |].
  assert (run_puts self catalog w = (Raise e, w0)) as Hrun.
  { unfold catalog. cbn [run_puts fst snd]. unfold bind. by rewrite Hput. }
  destruct (generate_all_false _ _ _ _ Hrun) as (w' & -> & [Hf _] & _).
  cbn [fst snd]. by rewrite Hf.
Qed.

(** X9.  [README.md] is written last: a run that wrote it has written
    every file, and returns [True]. *)
Theorem readme_written_last self w c :
  Wrote (target self "README.md") c ∈ events_since w (generate_all self w).2 →
  (generate_all self w).1 = Ok true.
Proof.
  intros Hin. destruct (generate_all_sim self w) as [_ Ht].
  destruct (run_puts self catalog w) as [[[]|e] w0] eqn:Hrun.
  { by destruct (generate_all_true _ _ _ Hrun) as (w' & -> & _). }
  exfalso. cbn [snd] in Ht.
  apply run_puts_raise in Hrun as (_ & pre & nc & post & Hcat & Ht0 & _).
  rewrite (events_since_app w _ ((wrote self <$> pre) ++ [WriteFailed (target self nc.1) e]))
    in Hin by (by rewrite Ht).
  apply elem_of_app in Hin as [Hin | Hin%list_elem_of_singleton]; [|done].
  apply list_elem_of_fmap in Hin as (nc' & [= Hk _] & Hnc').
  assert (("README.md", Literal.readme_content) ∈ nc :: post) as Hlast.
  { assert (last (pre ++ nc :: post) = Some ("README.md", Literal.readme_content)) as Hl
      by (by rewrite <- Hcat).
    rewrite last_app in Hl. destruct (last (nc :: post)) as [x|] eqn:Hx;
      [|by apply last_None in Hx].
    injection Hl as ->. apply last_Some in Hx as [l' ->]. apply elem_of_app. right. by left. }
  pose proof (targets_catalog_NoDup self) as Hnd.
  rewrite Hcat, targets_app in Hnd. apply NoDup_app in Hnd as (_ & Hdisj & _).
  apply (Hdisj (target self "README.md")).
  - rewrite Hk. apply list_elem_of_fmap. by exists nc'.
  - apply list_elem_of_fmap. by exists ("README.md", Literal.readme_content).
Qed.

(** *** The number of entries *)

Lemma entries_insert_old m d k v :
  is_Some (m !! k) → entries (<[k := v]> m) d ≡ₚ entries m d.
Proof.
  intros [x Hx].
  pose proof (entries_insert_new (delete k m) d k x (lookup_delete_eq m k)) as Hold.
  rewrite insert_delete_eq, (insert_id m k x Hx) in Hold.
  pose proof (entries_insert_new (delete k m) d k v (lookup_delete_eq m k)) as Hnew.
  rewrite insert_delete_eq in Hnew. by rewrite Hnew, Hold.
Qed.

Lemma filter_ext_elem {A} (P Q : A → Prop)
    `{!∀ x, Decision (P x)} `{!∀ x, Decision (Q x)} (l : list A) :
  (∀ x, x ∈ l → P x ↔ Q x) → filter P l = filter Q l.
Proof.
  induction l as [|x l IH]; intros Hext; [done|].
  rewrite !filter_cons, IH by (intros y Hy; apply Hext; by right).
  destruct (Hext x) as [H1 H2]; [by left|].
  repeat case_decide; try done; tauto.
Qed.

Lemma entries_write_all_count self ps m :
  Forall simple ps.*1 → NoDup ps.*1 →
  length (entries (write_all self ps m) (out_dir self))
  = length (entries m (out_dir self))
    + length (filter (fun k => m !! k = None) (targets self ps)).
Proof.
  revert m. induction ps as [|[n0 c0] ps IH]; intros m; [by cbn; lia|].
  cbn [fmap list_fmap fst]. intros [Hn Hs]%Forall_cons [Hfresh Hnd]%NoDup_cons.
  rewrite write_all_cons. cbn [fst snd targets fmap list_fmap].
  fold (targets self ps). rewrite (target_simple _ _ Hn), IH by done.
  assert (filter (fun k => <[out_dir self ++ [n0] := File c0]> m !! k = None) (targets self ps)
          = filter (fun k => m !! k = None) (targets self ps)) as ->.
  { apply filter_ext_elem. intros k Hk.
    rewrite lookup_insert_ne; [done|]. intros <-.
    rewrite (targets_simple _ _ Hs) in Hk.
    apply list_elem_of_fmap in Hk as (n & [_ [= ->]]%app_inj_1 & Hin); done. }
  rewrite filter_cons. case_decide as Hm.
  - rewrite entries_insert_new by done.
    rewrite decide_True by apply is_entry_snoc. cbn. lia.
  - rewrite entries_insert_old; [lia|]. by destruct (m !! (out_dir self ++ [n0])).
Qed.

(** X10.  A file is counted once: after a run that returns [True] the
    output directory has the entries it had before and, in addition, those
    of the nineteen files that were not there. *)
Theorem file_count_counts_new_files self w :
  (generate_all self w).1 = Ok true →
  length (entries (fs (generate_all self w).2) (out_dir self))
  = length (entries (fs w) (out_dir self))
    + length (filter (fun k => fs w !! k = None) (fixed_paths (out_dir self))).
Proof.
  intros [Hf _]%generate_all_true_fs. rewrite Hf, <- targets_catalog.
  apply entries_write_all_count; [apply catalog_simple | apply catalog_NoDup].
Qed.

(** *** The constructor and [main], again *)

(** X11.  The constructor can be run again: once it has returned, a
    second call returns the same generator and changes nothing.  The
    first call prints nothing and changes no path but that of the output
    directory. *)
Theorem init_idempotent dir gen w w1 :
  init dir w = (Ok gen, w1) →
  init dir w1 = (Ok gen, w1)
  ∧ stdout w1 = stdout w
  ∧ ∀ k, k ≠ resolve (Path_of dir) → fs w1 !! k = fs w !! k.
Proof.
  intros [-> Hmk]%init_ok.
  apply mkdir_ok in Hmk as (Hs & _ & Hd & Hcases).
  split; [|split; [done|]].
  - rewrite init_run. unfold mkdir_exist_ok. by rewrite Hd.
  - intros k Hk. destruct Hcases as [[-> _]|(_ & -> & _)]; [done|].
    by rewrite lookup_insert_ne.
Qed.

Lemma generate_all_fs_frame self w k :
  k ∉ targets self catalog → fs (generate_all self w).2 !! k = fs w !! k.
Proof.
  intros Hk. destruct (generate_all_sim self w) as [-> _]. by apply run_puts_frame.
Qed.

Lemma generate_all_fs_keeps self w k :
  is_Some (fs w !! k) → is_Some (fs (generate_all self w).2 !! k).
Proof.
  intros Hk. destruct (generate_all_sim self w) as [-> _]. by apply run_puts_keeps.
Qed.

(** The tree and the output [main] leaves, by what it returns. *)
Lemma main_cases argv w :
  (∃ e, main argv w = (Raise e, w))
  ∨ ∃ gen w1 b,
      init (output_dir_arg argv) w = (Ok gen, w1)
      ∧ (generate_all gen w1).1 = Ok b
      ∧ fs (main argv w).2 = fs (generate_all gen w1).2
      ∧ (main argv w).1 = (if b then Ok tt else Raise (SystemExit 1))
      ∧ stdout (main argv w).2
        = stdout (generate_all gen w1).2
          ++ (if b
              then [nl +:+ "Test files generated successfully in: "
                       +:+ path_str (absolute gen.(output_dir));
                    "You can now use these files to test the copyright notice extension!"]
              else [nl +:+ "Failed to generate test files."]).
Proof.
  destruct (init (output_dir_arg argv) w) as [[gen|e] w1] eqn:Hinit.
  - right. destruct (generate_all_returns gen w1) as (b & w2 & Hgen).
    exists gen, w1, b. split; [done|]. rewrite Hgen. cbn [fst snd].
    unfold main. rewrite chosen_dir. unfold bind. rewrite Hinit, Hgen.
    destruct b; cbv [print sys_exit raise bind]; cbn [fst snd fs stdout];
      repeat split; by rewrite <- ?app_assoc.
  - left. exists e. rewrite (main_init_raise _ _ _ _ Hinit).
    by apply init_raise, mkdir_raise in Hinit as [-> _].
Qed.

(** X12.  [main] changes the output directory and the nineteen files in
    it, and nothing else: every other path has after the run the node it
    had before, and no path that was there is gone. *)
Theorem main_frame argv w k :
  let d := resolve (Path_of (output_dir_arg argv)) in
  (k ≠ d → k ∉ fixed_paths d → fs (main argv w).2 !! k = fs w !! k)
  ∧ (is_Some (fs w !! k) → is_Some (fs (main argv w).2 !! k)).
Proof.
  intros d. subst d.
  destruct (main_cases argv w) as [[e ->] | (gen & w1 & b & Hinit & _ & Hfs & _)]; [done|].
  rewrite Hfs. pose proof (init_ok _ _ _ _ Hinit) as [Hgen Hmk].
  apply mkdir_ok in Hmk as (_ & _ & _ & Hcases).
  assert (out_dir gen = resolve (Path_of (output_dir_arg argv))) as Hd by (by rewrite Hgen).
  split.
  - intros Hk Hfix. rewrite generate_all_fs_frame by (by rewrite targets_catalog, Hd).
    destruct Hcases as [[-> _]|(_ & -> & _)]; [done|]. by rewrite lookup_insert_ne.
  - intros Hk. apply generate_all_fs_keeps.
    destruct Hcases as [[-> _]|(_ & -> & _)]; [done|].
    rewrite lookup_insert. case_decide; [by eexists | done].
Qed.

(** X13.  [main] only adds to the output.  It adds nothing when the
    constructor raises; when it returns, the last two lines are the
    message of success, with the absolute path of the output directory. *)
Theorem main_output argv w :
  ∃ l, stdout (main argv w).2 = stdout w ++ l
    ∧ (∀ cls msg, (main argv w).1 = Raise (OSError cls msg) → l = [])
    ∧ ((main argv w).1 = Ok tt →
       ∃ l', l = l' ++ [nl +:+ "Test files generated successfully in: "
                           +:+ path_str (absolute (Path_of (output_dir_arg argv)));
                        "You can now use these files to test the copyright notice extension!"]).
Proof.
  destruct (main_cases argv w) as [[e H] | (gen & w1 & b & Hinit & _ & _ & Hr & Hs)].
  - rewrite H. exists []. cbn [fst snd]. by rewrite app_nil_r.
  - destruct (appends_generate_all gen w1) as (l & Hl & _).
    pose proof (init_ok _ _ _ _ Hinit) as [Hgen Hmk].
    apply mkdir_ok in Hmk as (Hs1 & _).
    rewrite Hs, Hl, Hs1, Hr, <- app_assoc. eexists. split; [done|].
    destruct b; split; try done.
    intros _. rewrite Hgen. by eexists.
Qed.

(** *** Runs after runs *)

Lemma put_ok_quiet self n c w w' :
  put self n c w = (Ok tt, w') →
  node_at (fs w) (parent (target self n)) = Some Dir
  ∧ fault OpOpen (target self n) = None
  ∧ fault OpWrite (target self n) = None.
Proof.
  unfold put, bind, open_w, f_write, failed, target.
  repeat case_match; intros; simplify_eq; done.
Qed.

Lemma run_puts_ok_quiet self ps w w' :
  run_puts self ps w = (Ok tt, w') →
  ∀ nc, nc ∈ ps →
    fault OpOpen (target self nc.1) = None ∧ fault OpWrite (target self nc.1) = None.
Proof.
  revert w. induction ps as [|nc0 ps IH]; intros w Hrun nc Hin; [by apply elem_of_nil in Hin|].
  cbn [run_puts] in Hrun. unfold bind in Hrun.
  destruct (put self nc0.1 nc0.2 w) as [[[]|e] w1] eqn:Hput; [|done].
  apply elem_of_cons in Hin as [->|Hin].
  - by apply put_ok_quiet in Hput as (_ & ? & ?).
  - by eapply IH.
Qed.

Lemma run_puts_catalog_again self w w0 w1 :
  run_puts self catalog w = (Ok tt, w0) → fs w1 = fs w0 →
  ∃ w2, run_puts self catalog w1 = (Ok tt, w2).
Proof.
  intros Hrun Hfs. pose proof (run_puts_ok_quiet _ _ _ _ Hrun) as Hq.
  assert (node_at (fs w) (out_dir self) = Some Dir) as Hd.
  { revert Hrun. unfold catalog. cbn [run_puts fst snd]. unfold bind.
    destruct (put self "basic.js" Literal.basic_js w) as [[[]|e] wa] eqn:Hput; [|done].
    intros _. apply put_ok_quiet in Hput as (Hp & _).
    by rewrite (target_simple self "basic.js"), parent_snoc in Hp. }
  apply run_puts_ok in Hrun as (Hf0 & _).
  apply run_puts_succeeds; [apply catalog_simple| |].
  - rewrite Hfs, Hf0. unfold node_at in *. destruct (out_dir self) eqn:E; [done|].
    rewrite write_all_frame; [done|]. rewrite targets_catalog, E.
    intros (n & Hk & _)%list_elem_of_fmap. symmetry in Hk. by apply snoc_ne in Hk.
  - intros n Hn. apply list_elem_of_fmap in Hn as (nc & -> & Hnc).
    pose proof (proj1 (Forall_forall _ _) catalog_simple nc.1) as Hsimple.
    rewrite <- (target_simple self nc.1) by (apply Hsimple, list_elem_of_fmap; by exists nc).
    split; [|by apply Hq].
    by rewrite Hfs, Hf0, (write_all_content _ _ _ _ (targets_catalog_NoDup self) Hnc).
Qed.

Lemma last_put_None_inv self ps k :
  last_put self ps k = None → k ∉ targets self ps.
Proof.
  induction ps as [|nc ps IH]; [intros _; apply not_elem_of_nil|].
  cbn [last_put targets fmap list_fmap]. fold (targets self ps).
  destruct (last_put self ps k); [done|]. case_decide as Hk; [done|].
  intros _. apply not_elem_of_cons. split; [done | by apply IH].
Qed.

Lemma write_all_absorbs self ps m1 m2 :
  (∀ k, k ∉ targets self ps → m1 !! k = m2 !! k) →
  write_all self ps m1 = write_all self ps m2.
Proof.
  intros H. apply map_eq. intros k. rewrite !write_all_lookup.
  destruct (last_put self ps k) eqn:Hk; [done|]. by apply H, last_put_None_inv.
Qed.

End Script.

(** X14.  A run that returned [True] can be repeated: in the same
    environment of faults, a second run over its output returns [True]
    too, whatever the clock. *)
Theorem generate_all_again cwd now1 now2 fault self w :
  (generate_all cwd now1 fault self w).1 = Ok true →
  (generate_all cwd now2 fault self (generate_all cwd now1 fault self w).2).1 = Ok true.
Proof.
  intros H. destruct (generate_all_true_inv _ _ _ _ _ H) as [w0 Hrun].
  destruct (generate_all_sim cwd now1 fault self w) as [Hfs _]. rewrite Hrun in Hfs.
  destruct (run_puts_catalog_again _ _ _ _ _ _ Hrun Hfs) as [w2 Hrun2].
  by destruct (generate_all_true cwd now2 fault _ _ _ Hrun2) as (w' & -> & _).
Qed.

(** X15.  What an earlier run left behind does not show: a run that
    returns [True] leaves the same tree after any run, complete or cut
    short, as it leaves when it is the first. *)
Theorem generate_all_recovers cwd now1 fault1 now2 fault2 now3 fault3 self w :
  let r1 := generate_all cwd now1 fault1 self w in
  let r2 := generate_all cwd now2 fault2 self r1.2 in
  let r := generate_all cwd now3 fault3 self w in
  r2.1 = Ok true → r.1 = Ok true → fs r2.2 = fs r.2.
Proof.
  intros r1 r2 r H2 H. subst r1 r2 r.
  apply generate_all_true_fs in H2 as [-> _]. apply generate_all_true_fs in H as [-> _].
  apply write_all_absorbs. intros k Hk. by apply generate_all_fs_frame.
Qed.

(** C5.  A second run over the output of a first leaves every file as the
    first run left it, whatever the clock and the faults of either run,
    provided both succeed; each run writes each of the nineteen files
    once, over the file that is there, and the second adds no entry. *)
Theorem generate_all_idempotent cwd now1 fault1 now2 fault2 self w :
  let r1 := generate_all cwd now1 fault1 self w in
  let r2 := generate_all cwd now2 fault2 self r1.2 in
  r1.1 = Ok true →
  r2.1 = Ok true →
  fs r2.2 = fs r1.2
  ∧ entries (fs r2.2) (out_dir cwd self) = entries (fs r1.2) (out_dir cwd self)
  ∧ events_since w r1.2 = (wrote cwd self <$> catalog)
  ∧ events_since r1.2 r2.2 = (wrote cwd self <$> catalog)
  ∧ NoDup (targets cwd self catalog)
  ∧ targets cwd self catalog = fixed_paths (out_dir cwd self).
Proof.
  intros r1 r2 H1 H2. subst r1 r2.
  apply generate_all_true_fs in H1 as [Hf1 Ht1].
  apply generate_all_true_fs in H2 as [Hf2 Ht2].
  assert (fs (generate_all cwd now2 fault2 self (generate_all cwd now1 fault1 self w).2).2
          = fs (generate_all cwd now1 fault1 self w).2) as Hfs
    by (by rewrite Hf2, Hf1, write_all_idempotent).
  split; [done|]. split; [by rewrite Hfs|].
  split; [by apply events_since_app|]. split; [by apply events_since_app|].
  split; [apply targets_catalog_NoDup | apply targets_catalog].
Qed.

(** ** The claims on the sample environments *)

(** C1 in the bare tree: the directory is made and filled. *)
Lemma generate_all_fresh_directory_witness :
  let d := home ++ ["test_files"] in
  let r := main home noon no_fault ["gen_test_files.py"] bare in
  fresh_dir (fs bare) d = true
  ∧ exit_status r.1 = 0%Z
  ∧ Forall (fun k => ∃ c, fs r.2 !! k = Some (File c)) (fixed_paths d)
  ∧ length (entries (fs r.2) d) = 19.
Proof.
  split; [by vm_compute|].
  apply (generate_all_fresh_directory home noon no_fault ["gen_test_files.py"] bare);
    by vm_compute.
Defined.

(** C10 with two files of the user in the directory: 21 entries. *)
Lemma file_count_includes_existing_entries_witness :
  let self := {| output_dir := Path_of "test_files" |} in
  let d := home ++ ["test_files"] in
  let r := generate_all home noon no_fault self used in
  length (entries (fs used) d) = 2
  ∧ r.1 = Ok true
  ∧ length (entries (fs r.2) d) = 21
  ∧ "[2024-01-01 12:00:00] Generated 21 files in test_files" ∈ stdout r.2.
Proof.
  destruct (file_count_includes_existing_entries home noon no_fault
              {| output_dir := Path_of "test_files" |} used) as [Hline Hcount].
  destruct Hcount as [Hok Hlen]; [by vm_compute ..|].
  destruct (Hline Hok) as [t Ht].
  split; [by vm_compute|]. split; [done|]. split; [done|].
  cbv zeta in Hlen. rewrite Hlen in Ht. exact Ht.
Defined.

(** C9: the notes of the user are as they were. *)
Lemma generate_all_frame_witness :
  let self := {| output_dir := Path_of "test_files" |} in
  let k := home ++ ["test_files"; "notes.txt"] in
  let w' := (generate_all home noon no_fault self used).2 in
  fs w' !! k = Some (File "keep me") ∧ is_Some (fs w' !! k).
Proof.
  destruct (generate_all_frame home noon no_fault
              {| output_dir := Path_of "test_files" |} used
              (home ++ ["test_files"; "notes.txt"])) as [Hframe Hkeep].
  split.
  - cbv zeta. rewrite Hframe; [by vm_compute|].
    apply (bool_decide_unpack _). by vm_compute.
  - apply Hkeep. vm_compute. by eexists.
Defined.

(** C4 in the used directory. *)
Lemma fixture_contents_witness :
  let self := {| output_dir := Path_of "test_files" |} in
  let m := fs (generate_all home noon no_fault self used).2 in
  Forall (fun nc => m !! (home ++ ["test_files"; nc.1]) = Some (File nc.2)) catalog
  ∧ m !! (home ++ ["test_files"; "basic.py"])
    = Some (File ("def hello():" +:+ nl
                  +:+ "    print('Hello, World!')" +:+ nl
                  +:+ nl
                  +:+ "if __name__ == '__main__':" +:+ nl
                  +:+ "    hello()" +:+ nl)).
Proof.
  apply (fixture_contents home noon no_fault
           {| output_dir := Path_of "test_files" |} used).
  by vm_compute.
Defined.

(** C5: two runs, the second a day later. *)
Lemma generate_all_idempotent_witness :
  let self := {| output_dir := Path_of "test_files" |} in
  let r1 := generate_all home noon no_fault self used in
  let r2 := generate_all home (fun _ => "2024-01-02 08:30:00") no_fault self r1.2 in
  fs r2.2 = fs r1.2
  ∧ entries (fs r2.2) (out_dir home self) = entries (fs r1.2) (out_dir home self)
  ∧ events_since used r1.2 = (wrote home self <$> catalog)
  ∧ events_since r1.2 r2.2 = (wrote home self <$> catalog)
  ∧ NoDup (targets home self catalog)
  ∧ targets home self catalog = fixed_paths (out_dir home self).
Proof.
  apply (generate_all_idempotent home noon no_fault
           (fun _ => "2024-01-02 08:30:00") no_fault
           {| output_dir := Path_of "test_files" |} used);
    by vm_compute.
Defined.

(** C6 with the disk full at [basic.py]: the eight files before it stay. *)
Lemma write_failure_is_reported_witness :
  let r := main home noon disk_full ["gen_test_files.py"] bare in
  let e := OSError OtherOSError "[Errno 28] No space left on device" in
  length (written (events_since bare r.2)) = 8
  ∧ (∃ t, stamped noon t ("ERROR: Failed to generate test files: " +:+ exn_str e)
          ∈ stdout r.2)
  ∧ exit_status r.1 = 1%Z
  ∧ Forall (fun kc => fs r.2 !! kc.1 = Some (File kc.2))
      (written (events_since bare r.2)).
Proof.
  split; [by vm_compute|].
  apply (write_failure_is_reported home noon disk_full ["gen_test_files.py"] bare
           (home ++ ["test_files"; "basic.py"])).
  by vm_compute.
Defined.

(** C2, as amended, in the used directory. *)
Lemma settings_document_witness :
  let self := {| output_dir := Path_of "test_files" |} in
  let r := generate_all home noon no_fault self used in
  ∃ text v ks,
    fs r.2 !! (home ++ ["test_files"; "test_settings.json"]) = Some (File text)
    ∧ loads text = Some v ∧ keys v = Some ks
    ∧ (∀ k, k ∈ ks ↔ k ∈ settings_keys)
    ∧ get "copyright-notice.includeTimestamp" v = Some (JBool true)
    ∧ get "copyright-notice.includeUpdateTime" v = Some (JBool true).
Proof.
  apply (settings_document home noon no_fault
           {| output_dir := Path_of "test_files" |} used).
  by vm_compute.
Defined.

(** C2 as the specification states it fails there: no key of the document
    is [fileExtensions]. *)
Lemma settings_keys_counterexample :
  let self := {| output_dir := Path_of "test_files" |} in
  let r := generate_all home noon no_fault self used in
  r.1 = Ok true
  ∧ ∃ text,
      fs r.2 !! (home ++ ["test_files"; "test_settings.json"]) = Some (File text)
      ∧ ¬ settings_as_claimed text.
Proof.
  split; [by vm_compute|]. exists (dumps settings 4). split; [by vm_compute|].
  intros (v & ks & Hl & Hk & Hks & _).
  rewrite settings_round_trip in Hl. injection Hl as <-. injection Hk as <-.
  assert ("fileExtensions" ∈ claimed_keys) as Hin by left.
  apply Hks in Hin. revert Hin. apply (bool_decide_unpack _). by vm_compute.
Qed.



(** C7, as amended, with a regular file in the way. *)
Lemma directory_creation_failure_propagates_witness :
  let e := OSError FileExistsError "[Errno 17] File exists: 'test_files'" in
  main home noon no_fault ["gen_test_files.py"] blocked = (Raise e, blocked)
  ∧ is_Exception e = true
  ∧ exit_status (Raise e) = 1%Z.
Proof.
  apply (directory_creation_failure_propagates home noon no_fault
           ["gen_test_files.py"] blocked _ blocked).
  by vm_compute.
Defined.

(** C7 as the specification states it fails there: the exception leaves
    [main], and nothing is logged. *)
Lemma uncaught_counterexample :
  ¬ caught_and_logged home noon no_fault ["gen_test_files.py"] blocked.
Proof.
  intros H.
  destruct (H (OSError FileExistsError "[Errno 17] File exists: 'test_files'") blocked)
    as (_ & Hlog & _); [by vm_compute|].
  apply Hlog. by vm_compute.
Qed.

(** ** More about the script, on the sample environments *)

(** X2: the notes of the user, written over. *)
Lemma create_file_success_witness :
  let self := {| output_dir := Path_of "test_files" |} in
  let r := create_file home noon no_fault self "notes.txt" "new" "a note" used in
  fs used !! (home ++ ["test_files"; "notes.txt"]) = Some (File "keep me")
  ∧ truediv self.(output_dir) "notes.txt" = truediv self.(output_dir) "notes.txt"
  ∧ fs r.2 = <[home ++ ["test_files"; "notes.txt"] := File "new"]> (fs used)
  ∧ stdout r.2 = stdout used ++ ["[2024-01-01 12:00:00] ✓ Created notes.txt (3 chars) - a note"]
  ∧ clock r.2 = S (clock used).
Proof.
  split; [by vm_compute|].
  apply (create_file_success home noon no_fault {| output_dir := Path_of "test_files" |}
           "notes.txt" "new" "a note" used).
  vm_compute. reflexivity.
Defined.

(** X3: a directory under the name [basic.py]. *)
Lemma create_file_failure_witness :
  let self := {| output_dir := Path_of "test_files" |} in
  let e := OSError IsADirectoryError "[Errno 21] Is a directory: 'test_files/basic.py'" in
  let w' := (create_file home noon no_fault self "basic.py" Literal.basic_py "" obstructed).2 in
  is_Exception e = true
  ∧ stdout w' = stdout obstructed
  ∧ events_since obstructed w' = [WriteFailed (target home self "basic.py") e]
  ∧ ∀ k, k ≠ target home self "basic.py" → fs w' !! k = fs obstructed !! k.
Proof.
  apply (create_file_failure home noon no_fault {| output_dir := Path_of "test_files" |}
           "basic.py" Literal.basic_py "" _ obstructed).
  vm_compute. reflexivity.
Defined.

(** X4: no output directory in the bare tree. *)
Lemma create_file_needs_directory_witness :
  let self := {| output_dir := Path_of "test_files" |} in
  ∃ e w', create_file home noon no_fault self "basic.py" Literal.basic_py "" bare = (Raise e, w')
    ∧ fs w' = fs bare ∧ stdout w' = stdout bare.
Proof.
  apply (create_file_needs_directory home noon no_fault
           {| output_dir := Path_of "test_files" |} "basic.py" Literal.basic_py "" bare).
  - by vm_compute.
  - left. by vm_compute.
Defined.

(** X6: the run stops at [basic.py]. *)
Lemma generate_all_stops_at_first_failure_witness :
  let self := {| output_dir := Path_of "test_files" |} in
  let r := generate_all home noon no_fault self obstructed in
  ∃ pre nc post e,
    catalog = pre ++ nc :: post
    ∧ events_since obstructed r.2
      = (wrote home self <$> pre) ++ [WriteFailed (target home self nc.1) e]
    ∧ ∀ k, k ∈ targets home self post → fs r.2 !! k = fs obstructed !! k.
Proof.
  apply (generate_all_stops_at_first_failure home noon no_fault
           {| output_dir := Path_of "test_files" |} obstructed).
  by vm_compute.
Defined.

(** X8: no output directory in the bare tree. *)
Lemma generate_all_needs_directory_witness :
  let self := {| output_dir := Path_of "test_files" |} in
  let r := generate_all home noon no_fault self bare in
  r.1 = Ok false ∧ fs r.2 = fs bare.
Proof.
  apply (generate_all_needs_directory home noon no_fault
           {| output_dir := Path_of "test_files" |} bare).
  by vm_compute.
Defined.

(** X9: a complete run in the used directory. *)
Lemma readme_written_last_witness :
  let self := {| output_dir := Path_of "test_files" |} in
  (generate_all home noon no_fault self used).1 = Ok true.
Proof.
  apply (readme_written_last home noon no_fault
           {| output_dir := Path_of "test_files" |} used Literal.readme_content).
  apply list_elem_of_In. vm_compute. do 18 right. by left.
Defined.

(** X10: nineteen new files beside the two of the user. *)
Lemma file_count_counts_new_files_witness :
  let self := {| output_dir := Path_of "test_files" |} in
  let d := home ++ ["test_files"] in
  length (filter (fun k => fs used !! k = None) (fixed_paths d)) = 19
  ∧ length (entries (fs (generate_all home noon no_fault self used).2) d)
    = length (entries (fs used) d)
      + length (filter (fun k => fs used !! k = None) (fixed_paths d)).
Proof.
  split; [by vm_compute|].
  apply (file_count_counts_new_files home noon no_fault
           {| output_dir := Path_of "test_files" |} used).
  by vm_compute.
Defined.

(** X11: the directory made in the bare tree, and the constructor run
    again. *)
Lemma init_idempotent_witness :
  let gen := {| output_dir := Path_of "test_files" |} in
  let w1 := (init home no_fault "test_files" bare).2 in
  init home no_fault "test_files" w1 = (Ok gen, w1)
  ∧ stdout w1 = stdout bare
  ∧ ∀ k, k ≠ resolve home (Path_of "test_files") → fs w1 !! k = fs bare !! k.
Proof.
  apply (init_idempotent home no_fault "test_files" _ bare).
  vm_compute. reflexivity.
Defined.

(** X12: the notes of the user after [main]. *)
Lemma main_frame_witness :
  let k := home ++ ["test_files"; "notes.txt"] in
  let w' := (main home noon no_fault ["gen_test_files.py"] used).2 in
  fs w' !! k = Some (File "keep me") ∧ is_Some (fs w' !! k).
Proof.
  destruct (main_frame home noon no_fault ["gen_test_files.py"] used
              (home ++ ["test_files"; "notes.txt"])) as [Hframe Hkeep].
  split.
  - cbv zeta. rewrite Hframe; [by vm_compute | by vm_compute |].
    apply (bool_decide_unpack _). by vm_compute.
  - apply Hkeep. vm_compute. by eexists.
Defined.

(** X14: a second run in the used directory. *)
Lemma generate_all_again_witness :
  let self := {| output_dir := Path_of "test_files" |} in
  (generate_all home (fun _ => "2024-01-02 08:30:00") no_fault self
     (generate_all home noon no_fault self used).2).1 = Ok true.
Proof.
  apply (generate_all_again home noon (fun _ => "2024-01-02 08:30:00") no_fault
           {| output_dir := Path_of "test_files" |} used).
  by vm_compute.
Defined.

(** X15: a run with the disk full, then a run that succeeds. *)
Lemma generate_all_recovers_witness :
  let self := {| output_dir := Path_of "test_files" |} in
  let r1 := generate_all home noon disk_full self used in
  let r2 := generate_all home noon no_fault self r1.2 in
  let r := generate_all home noon no_fault self used in
  r1.1 = Ok false ∧ fs r2.2 = fs r.2.
Proof.
  split; [by vm_compute|].
  apply (generate_all_recovers home noon disk_full noon no_fault noon no_fault
           {| output_dir := Path_of "test_files" |} used);
    by vm_compute.
Defined.


(** Two leading slashes are kept, three are not. *)
Lemma path_str_leading_slashes :
  path_str (Path_of "//home/user/out2") = "//home/user/out2"
  ∧ path_str (Path_of "///home/user/out2") = "/home/user/out2"
  ∧ path_str (Path_of "/home//user/./out2/") = "/home/user/out2"
  ∧ path_str (Path_of "out2") = "out2"
  ∧ path_str (Path_of "") = ".".
Proof. by vm_compute. Qed.
